(** * Chat orchestration engine of the todo backend

    A shallow embedding of [backend/app/ai/sessions.py] (the in-memory
    session store), [backend/app/core/config.py] (the settings),
    [backend/app/ai/agent.py] (the streaming tool execution loop) and the
    request model of [backend/app/routes/chat.py], followed by the
    properties of the specification that concern them.

    Conventions of the embedding:
    - a Python [dict] used as a record (a message, a collected tool call)
      is a Rocq record; a missing key or [None] is [None];
    - the global dict [_sessions] is a [gmap string ChatSession]; a session
      object is identified with its entry in that map (it is only ever
      inserted under its own [session_id], see [store_wf]);
    - [datetime] values are microseconds as [Z]; every function that reads
      the clock takes the reading as an argument;
    - an exception is the [Raise] case of [result], carrying [str(e)];
      where the class of the exception decides whether an [except] clause
      catches it, the outcome type has one case per class;
    - an async generator is the list of the events it yields, together
      with the state it leaves behind; an exception that leaves the
      generator ends the list. *)

From Stdlib Require Import ZArith List String Ascii Bool Lia DecimalString DecimalZ.
From stdpp Require Import base option list gmap strings fin_maps.

Local Open Scope string_scope.
Local Open Scope Z_scope.
Local Open Scope list_scope.
Set Warnings "-register-all".

(** ** Python truthiness *)

Definition truthy_str (s : string) : bool :=
  match s with EmptyString => false | String _ _ => true end.

Definition truthy_opt_str (o : option string) : bool :=
  match o with Some s => truthy_str s | None => false end.

Definition truthy_opt_list {A} (o : option (list A)) : bool :=
  match o with Some (_ :: _) => true | _ => false end.

(** ** Messages *)

(** An entry of [tool_calls] in an assistant message:
    [{"id": .., "type": "function", "function": {"name": .., "arguments": ..}}]. *)
Record WireToolCall := mkWire {
  wire_id : string;
  wire_type : string;
  wire_name : string;
  wire_arguments : string
}.

(** A role-tagged message dict.  [tool_calls] and [tool_call_id] are keys
    that are present only on some messages. *)
Record Message := mkMessage {
  role : string;
  content : option string;
  tool_calls : option (list WireToolCall);
  tool_call_id : option string
}.

(** ** sessions.py *)

Module Sessions.

Record ChatSession := mkSession {
  session_id : string;
  user_id : string;
  messages : list Message;
  created_at : Z;
  last_activity : Z
}.

(** [ChatSession.__init__]: [uuid] is the value of [str(uuid.uuid4())],
    [now] the clock. *)
Definition new_session (uuid : string) (now : Z) (uid : string) : ChatSession :=
  {| session_id := uuid; user_id := uid; messages := [];
     created_at := now; last_activity := now |}.

(** [self.messages[-20:]] *)
Definition last20 (l : list Message) : list Message :=
  drop (length l - 20)%nat l.

(** [[self.messages[0]]]; the list is never empty where this is used. *)
Definition first1 (l : list Message) : list Message :=
  match l with m0 :: _ => [m0] | [] => [] end.

Definition trim (l : list Message) : list Message :=
  if (21 <? length l)%nat then first1 l ++ last20 l else l.

Definition add_message (now : Z) (r : string) (c : option string)
    (tcs : option (list WireToolCall)) (s : ChatSession) : ChatSession :=
  let msg := {| role := r; content := c;
                tool_calls := if truthy_opt_list tcs then tcs else None;
                tool_call_id := None |} in
  {| session_id := session_id s; user_id := user_id s;
     messages := trim (messages s ++ [msg]);
     created_at := created_at s; last_activity := now |}.

Definition get_messages_for_api (s : ChatSession) : list Message := messages s.

(** [timedelta(hours=h)] in microseconds. *)
Definition hours (h : Z) : Z := h * 3600 * 1000000.

Definition is_expired (now : Z) (timeout_hours : Z) (s : ChatSession) : bool :=
  last_activity s + hours timeout_hours <? now.

Definition _cleanup_expired_sessions (now : Z)
    (sessions : gmap string ChatSession) : gmap string ChatSession :=
  filter (λ kv, is_expired now 24 kv.2 = false) sessions.

(** [get_or_create_session]: [sid] is the optional [session_id] argument;
    [uuid] is what [uuid4] yields should a session be created.  Returns the
    session and the updated store. *)
Definition get_or_create_session (now : Z) (uuid : string) (uid : string)
    (sid : option string) (sessions : gmap string ChatSession)
  : ChatSession * gmap string ChatSession :=
  let sessions := _cleanup_expired_sessions now sessions in
  let fresh := new_session uuid now uid in
  let create := (fresh, <[session_id fresh := fresh]> sessions) in
  match sid with
  | Some k =>
      if truthy_str k then
        match sessions !! k with
        | Some session =>
            if bool_decide (user_id session = uid) && negb (is_expired now 24 session)
            then (session, sessions)
            else create
        | None => create
        end
      else create
  | None => create
  end.

Definition get_session (k : string) (sessions : gmap string ChatSession)
  : option ChatSession := sessions !! k.

Definition delete_session (k : string) (sessions : gmap string ChatSession)
  : bool * gmap string ChatSession :=
  match sessions !! k with
  | Some _ => (true, delete k sessions)
  | None => (false, sessions)
  end.

(** Every session sits under its own id. *)
Definition store_wf (sessions : gmap string ChatSession) : Prop :=
  ∀ k s, sessions !! k = Some s → session_id s = k.

End Sessions.

(** ** core/config.py *)

Module Config.

(** Reading an attribute of [settings]: the class either declares no such
    field, or declares it and the instance holds its value ([None] for an
    optional field left unset). *)
Inductive Setting :=
| Undeclared
| Declared (v : option string).

(** The text of the [AttributeError] of a read of an undeclared field. *)
Definition no_attribute (name : string) : string :=
  "'Settings' object has no attribute '" +:+ name +:+ "'".

(** The fields that [class Settings] declares, each with the text of its
    default ([None] for a required field). *)
Definition Settings : list (string * option string) :=
  [ ("DATABASE_URL", None);
    ("BETTER_AUTH_SECRET", None);
    ("APP_NAME", Some "Todo API");
    ("DEBUG", Some "False");
    ("FRONTEND_URL", Some "http://localhost:3000");
    ("JWT_ALGORITHM", Some "HS256") ].

Fixpoint field (name : string) (fields : list (string * option string))
  : option (option string) :=
  match fields with
  | [] => None
  | (n, dflt) :: rest => if String.eqb n name then Some dflt else field name rest
  end.

(** [settings.<name>] on the instance built from the environment [env]
    (the variables of the process and of [.env], as text).  The class has
    [extra = "ignore"]: a variable that is no declared field is dropped, so
    the declared fields are the only attributes.  (When the environment
    lacks a required field, [Settings()] itself fails and the process does
    not start.) *)
Definition getattr (env : string → option string) (name : string) : Setting :=
  match field name Settings with
  | None => Undeclared
  | Some dflt =>
      Declared (match env name with Some v => Some v | None => dflt end)
  end.

End Config.

(** ** agent.py *)

Module Agent.
Import Sessions Config.

(** What [json.loads] returns. *)
Inductive JValue :=
| JNull
| JBool (b : bool)
| JNum (z : Z)
| JStr (s : string)
| JArr (l : list JValue)
| JObj (kv : list (string * JValue)).

(** A computation that may raise; [Raise e] carries [str(e)]. *)
Inductive result (A : Type) :=
| Ok (a : A)
| Raise (e : string).
Arguments Ok {A} a.
Arguments Raise {A} e.

(** The events of the stream, before their serialisation as
    [data: {json}] frames; [kind] is the frame's [type] field. *)
Inductive Event :=
| EvContent (c : string) (sid : option string)
| EvToolCall (id name : string) (arguments : JValue)
| EvError (e : string)
| EvDone.

Definition kind (e : Event) : string :=
  match e with
  | EvContent _ _ => "content"
  | EvToolCall _ _ _ => "tool_call"
  | EvError _ => "error"
  | EvDone => "done"
  end.

Definition is_done (e : Event) : bool :=
  match e with EvDone => true | _ => false end.

Definition is_error (e : Event) : bool :=
  match e with EvError _ => true | _ => false end.

Definition is_content (e : Event) : bool :=
  match e with EvContent _ _ => true | _ => false end.

Definition is_tool_call (e : Event) : bool :=
  match e with EvToolCall _ _ _ => true | _ => false end.

(** *** The model gateway's stream *)

Record FunctionDelta := mkFunctionDelta {
  fn_name : option string;
  fn_arguments : option string
}.

Record ToolCallDelta := mkDelta {
  d_index : option Z;
  d_id : option string;
  d_function : option FunctionDelta
}.

(** [chunk.choices[0].delta] *)
Record Chunk := mkChunk {
  delta_content : option string;
  delta_tool_calls : option (list ToolCallDelta)
}.

(** One call of [client.chat.completions.create] and the consumption of
    its stream: the chunks received, and [Some e] when the call or the
    stream raised [e] after them (no chunks when the call itself raised). *)
Record Response := mkResponse {
  chunks : list Chunk;
  failure : option string
}.

(** An entry of [current_tools] and of [tool_calls_data]. *)
Record ToolCall := mkToolCall {
  tc_id : string;
  tc_name : string;
  tc_arguments : string
}.

Definition empty_tool : ToolCall :=
  {| tc_id := EmptyString; tc_name := EmptyString;
     tc_arguments := EmptyString |}.

Definition upd_tool (d : ToolCallDelta) (t : ToolCall) : ToolCall :=
  let t :=
    match d_id d with
    | Some i => if truthy_str i
                then {| tc_id := i; tc_name := tc_name t; tc_arguments := tc_arguments t |}
                else t
    | None => t
    end in
  match d_function d with
  | Some f =>
      let t :=
        match fn_name f with
        | Some n => if truthy_str n
                    then {| tc_id := tc_id t; tc_name := n; tc_arguments := tc_arguments t |}
                    else t
        | None => t
        end in
      match fn_arguments f with
      | Some a => if truthy_str a
                  then {| tc_id := tc_id t; tc_name := tc_name t;
                          tc_arguments := tc_arguments t +:+ a |}
                  else t
      | None => t
      end
  | None => t
  end.

(** [current_tools] is a dict keyed by index; its insertion order is the
    order of [values()], so it is an association list. *)
Definition has_index (i : Z) (cur : list (Z * ToolCall)) : bool :=
  existsb (λ kv, Z.eqb kv.1 i) cur.

Definition alter_index (f : ToolCall → ToolCall) (i : Z)
    (cur : list (Z * ToolCall)) : list (Z * ToolCall) :=
  map (λ kv, if Z.eqb kv.1 i then (kv.1, f kv.2) else kv) cur.

Definition collect_delta (cur : list (Z * ToolCall)) (d : ToolCallDelta)
  : list (Z * ToolCall) :=
  match d_index d with
  | Some i =>
      let cur := if has_index i cur then cur else cur ++ [(i, empty_tool)] in
      alter_index (upd_tool d) i cur
  | None => cur
  end.

(** The body of [async for chunk in stream], on the accumulators
    [full_content] and [current_tools]; returns the events it yields. *)
Definition consume_chunk (acc : string * list (Z * ToolCall)) (ch : Chunk)
  : list Event * (string * list (Z * ToolCall)) :=
  let '(full, cur) := acc in
  let '(evs, full) :=
    match delta_content ch with
    | Some c => if truthy_str c then ([EvContent c None], full +:+ c) else ([], full)
    | None => ([], full)
    end in
  let cur :=
    match delta_tool_calls ch with
    | Some ds => fold_left collect_delta ds cur
    | None => cur
    end in
  (evs, (full, cur)).

Fixpoint consume_stream (acc : string * list (Z * ToolCall)) (chs : list Chunk)
  : list Event * (string * list (Z * ToolCall)) :=
  match chs with
  | [] => ([], acc)
  | ch :: rest =>
      let '(evs, acc) := consume_chunk acc ch in
      let '(evs', acc) := consume_stream acc rest in
      (evs ++ evs', acc)
  end.

(** *** The tool registry *)

Inductive ToolName :=
| create_task | list_tasks | update_task | delete_task | mark_task_complete.

(** [TOOL_HANDLERS.get(name)] *)
Definition TOOL_HANDLERS_get (name : string) : option ToolName :=
  if String.eqb name "create_task" then Some create_task
  else if String.eqb name "list_tasks" then Some list_tasks
  else if String.eqb name "update_task" then Some update_task
  else if String.eqb name "delete_task" then Some delete_task
  else if String.eqb name "mark_task_complete" then Some mark_task_complete
  else None.

(** The prefix of the two synthetic results, with the bytes the source
    file has. *)
Definition mark : string := "‚ùå".

Definition unknown_tool_text (name : string) : string :=
  mark +:+ " Unknown tool: " +:+ name.

Definition tool_error_text (e : string) : string :=
  mark +:+ " Tool execution error: " +:+ e.

Definition has_kwarg (k : string) (kwargs : list (string * JValue)) : bool :=
  existsb (λ kv, String.eqb kv.1 k) kwargs.

Definition wire (tc : ToolCall) : WireToolCall :=
  {| wire_id := tc_id tc; wire_type := "function";
     wire_name := tc_name tc; wire_arguments := tc_arguments tc |}.

(** The assistant message appended to the per-turn list [messages]. *)
Definition assistant_tool_message (full : string) (tcs : list ToolCall) : Message :=
  {| role := "assistant";
     content := if truthy_str full then Some full else None;
     tool_calls := Some (map wire tcs);
     tool_call_id := None |}.

Definition tool_message (tc : ToolCall) (res : string) : Message :=
  {| role := "tool"; content := Some res; tool_calls := None;
     tool_call_id := Some (tc_id tc) |}.

Definition system_message (prompt : string) : Message :=
  {| role := "system"; content := Some prompt; tool_calls := None;
     tool_call_id := None |}.

(** *** The orchestration loop *)

(** The state shared by all requests: the global [_sessions], the task
    store behind the tool handlers, and whether the global [_client] has
    been created. *)
Record World (DB : Type) := mkWorld {
  sessions : gmap string ChatSession;
  db : DB;
  client : bool
}.
Arguments mkWorld {DB} _ _ _.
Arguments sessions {DB} _.
Arguments db {DB} _.
Arguments client {DB} _.

(** The clock readings and the [uuid4] draw of one chat turn. *)
Record Turn := mkTurn {
  t_fetch : Z;      (* at [get_or_create_session] *)
  t_user : Z;       (* at [add_message("user", ..)] *)
  t_reply : Z;      (* at [add_message("assistant", ..)] *)
  uuid4 : string
}.

(** What a generator leaves behind: the events it yielded, the state, and
    (as a ghost log) the message lists of the calls of the model, one per
    round that was begun, a call that raised included. *)
Record Run (DB : Type) := mkRun {
  events : list Event;
  world : World DB;
  requests : list (list Message)
}.
Arguments mkRun {DB} _ _ _.
Arguments events {DB} _.
Arguments world {DB} _.
Arguments requests {DB} _.

Inductive Dispatch (DB : Type) :=
| Dispatched (evs : list Event) (msgs : list Message) (d : DB)
| DispatchRaised (evs : list Event) (e : string) (d : DB).
Arguments Dispatched {DB} _ _ _.
Arguments DispatchRaised {DB} _ _ _.

Inductive Round (DB : Type) :=
| RoundFinal (evs : list Event) (full_content : string)
| RoundTools (evs : list Event) (msgs : list Message) (d : DB)
| RoundFailed (evs : list Event) (e : string) (d : DB).
Arguments RoundFinal {DB} _ _.
Arguments RoundTools {DB} _ _ _.
Arguments RoundFailed {DB} _ _ _.

Definition max_iterations : nat := 5.

(** What a call of [get_openai_client()] does: it returns the client, or
    raises one of two exceptions. *)
Inductive Client :=
| Ready
| ValueError (e : string)
| AttributeError (e : string).

Section Loop.

(** [json.loads]. *)
Variable json_loads : string → result JValue.

(** The task store, and the five handlers of tools.py as functions of the
    injected [user_id], the remaining keyword arguments and the store; a
    keyword the handler does not accept is a [Raise] of the handler. *)
Variable DB : Type.
Variable handler : ToolName → string → list (string * JValue) → DB → result string * DB.

(** The text of the [TypeError] that the call [handler(user_id=.., **args)]
    raises before the handler runs. *)
Variable kwargs_error : ToolName → JValue → string.

(** What reading [settings.OPENAI_API_KEY] gives, and [SYSTEM_PROMPT]. *)
Variable OPENAI_API_KEY : Setting.
Variable SYSTEM_PROMPT : string.

(** The model: what the statement
    [stream = await client.chat.completions.create(model=settings.AI_MODEL,
    messages=messages, ..)] and the consumption of [stream] do at the
    [iteration]-th round of a turn on the given message list.  A [failure]
    is any exception raised between the [try] of the round and the end of
    the stream: by the network, by the service, or by the evaluation of the
    argument [settings.AI_MODEL]. *)
Variable completions_create : nat → list Message → Response.

(** [get_openai_client], on whether the global [_client] is set: with no
    client yet it reads [settings.OPENAI_API_KEY], which raises the
    [AttributeError] when the class declares no such field, and raises the
    [ValueError] on a value that is not truthy. *)
Definition get_openai_client (cached : bool) : Client :=
  if cached then Ready
  else match OPENAI_API_KEY with
       | Undeclared => AttributeError (no_attribute "OPENAI_API_KEY")
       | Declared v =>
           if truthy_opt_str v then Ready
           else ValueError "OPENAI_API_KEY is not set"
       end.

(** [handler(user_id=user_id, **args)] *)
Definition call_handler (h : ToolName) (uid : string) (args : JValue) (d : DB)
  : result string * DB :=
  match args with
  | JObj kwargs =>
      if has_kwarg "user_id" kwargs then (Raise (kwargs_error h args), d)
      else handler h uid kwargs d
  | _ => (Raise (kwargs_error h args), d)
  end.

(** The inner [try] of the dispatch loop: the text of [result]. *)
Definition execute_tool (uid : string) (tc : ToolCall) (d : DB) : string * DB :=
  match TOOL_HANDLERS_get (tc_name tc) with
  | Some h =>
      match json_loads (tc_arguments tc) with
      | Ok args =>
          match call_handler h uid args d with
          | (Ok res, d') => (res, d')
          | (Raise e, d') => (tool_error_text e, d')
          end
      | Raise e => (tool_error_text e, d)
      end
  | None => (unknown_tool_text (tc_name tc), d)
  end.

Definition prepend_events (ev : Event) (o : Dispatch DB) : Dispatch DB :=
  match o with
  | Dispatched evs m d => Dispatched (ev :: evs) m d
  | DispatchRaised evs e d => DispatchRaised (ev :: evs) e d
  end.

(** [for tc in tool_calls_data]: the [json.loads] of the [tool_call] event
    is outside the inner [try], so its exception leaves the loop. *)
Fixpoint dispatch_tools (uid : string) (tcs : list ToolCall)
    (msgs : list Message) (d : DB) : Dispatch DB :=
  match tcs with
  | [] => Dispatched [] msgs d
  | tc :: rest =>
      match json_loads (tc_arguments tc) with
      | Raise e => DispatchRaised [] e d
      | Ok args =>
          let '(res, d') := execute_tool uid tc d in
          prepend_events (EvToolCall (tc_id tc) (tc_name tc) args)
            (dispatch_tools uid rest (msgs ++ [tool_message tc res]) d')
      end
  end.

(** The body of [for iteration in range(max_iterations)] up to the point
    where it breaks or continues. *)
Definition run_round (iteration : nat) (uid : string) (msgs : list Message)
    (d : DB) : Round DB :=
  let resp := completions_create iteration msgs in
  let '(evs, (full_content, current_tools)) :=
    consume_stream (EmptyString, []) (chunks resp) in
  match failure resp with
  | Some e => RoundFailed evs e d
  | None =>
      let tool_calls_data := map snd current_tools in
      match tool_calls_data with
      | [] => RoundFinal evs full_content
      | _ :: _ =>
          let msgs := msgs ++ [assistant_tool_message full_content tool_calls_data] in
          match dispatch_tools uid tool_calls_data msgs d with
          | Dispatched evs' msgs d' => RoundTools (evs ++ evs') msgs d'
          | DispatchRaised evs' e d' => RoundFailed (evs ++ evs') e d'
          end
      end
  end.

(** The loop over [range(fuel)] starting at [iteration], for the session
    stored under [k]. *)
Fixpoint tool_loop (fuel iteration : nat) (now : Z) (uid k : string)
    (msgs : list Message) (w : World DB) : Run DB :=
  match fuel with
  | O => mkRun [] w []
  | S fuel' =>
      match run_round iteration uid msgs (db w) with
      | RoundFinal evs full_content =>
          mkRun evs
            (mkWorld (alter (add_message now "assistant" (Some full_content) None) k
                        (sessions w))
                     (db w) (client w))
            [msgs]
      | RoundFailed evs e d =>
          mkRun (evs ++ [EvError e]) (mkWorld (sessions w) d (client w)) [msgs]
      | RoundTools evs msgs' d =>
          let r := tool_loop fuel' (S iteration) now uid k msgs'
                     (mkWorld (sessions w) d (client w)) in
          mkRun (evs ++ events r) (world r) (msgs :: requests r)
      end
  end.

(** [session = get_or_create_session(..)] followed by
    [session.add_message("user", message)]: the session object and the
    state, in which the object is the entry under its own id. *)
Definition open_turn (t : Turn) (message uid : string) (sid : option string)
    (w : World DB) : ChatSession * World DB :=
  let '(session, store) :=
    get_or_create_session (t_fetch t) (uuid4 t) uid sid (sessions w) in
  let session := add_message (t_user t) "user" (Some message) None session in
  (session, mkWorld (<[session_id session := session]> store) (db w) true).

(** The generator.  Only the [ValueError] of [get_openai_client] is caught;
    its [AttributeError] leaves the generator before the first [yield], so
    the stream has no event at all and nothing has been touched. *)
Definition process_chat_stream (t : Turn) (message uid : string)
    (sid : option string) (w : World DB) : Run DB :=
  match get_openai_client (client w) with
  | AttributeError _ => mkRun [] w []
  | ValueError e =>
      mkRun [EvError ("AI features not available: " +:+ e); EvDone] w []
  | Ready =>
      let '(session, w1) := open_turn t message uid sid w in
      let msgs := system_message SYSTEM_PROMPT :: get_messages_for_api session in
      let r := tool_loop max_iterations 0 (t_reply t) uid (session_id session)
                 msgs w1 in
      mkRun ([EvContent EmptyString (Some (session_id session))]
               ++ events r ++ [EvDone])
            (world r) (requests r)
  end.

End Loop.

End Agent.

(** ** ai/models.py and routes/chat.py *)

Module Routes.
Import Config Agent.

(** The JSON object of a request body: the values under its keys
    [message] and [session_id], [None] for a key that is absent. *)
Record Body := mkBody {
  body_message : option JValue;
  body_session_id : option JValue
}.

Record ChatRequest := mkChatRequest {
  message : string;
  session_id : option string
}.

(** The number of characters of a UTF-8 encoded [str]: the bytes that are
    not continuation bytes. *)
Fixpoint char_count (s : string) : nat :=
  match s with
  | EmptyString => O
  | String a rest =>
      let b := nat_of_ascii a in
      if (Nat.leb 128 b && Nat.ltb b 192)%bool then char_count rest
      else S (char_count rest)
  end.

(** An optional [str] field. *)
Definition optional_str (v : option JValue) : option (option string) :=
  match v with
  | None | Some JNull => Some None
  | Some (JStr s) => Some (Some s)
  | Some _ => None
  end.

(** Validation against [ChatRequest] of routes/chat.py, the model the
    endpoint declares: [message: str], [session_id: str | None = None]. *)
Definition ChatRequest_validate (b : Body) : option ChatRequest :=
  match body_message b, optional_str (body_session_id b) with
  | Some (JStr m), Some sid => Some {| message := m; session_id := sid |}
  | _, _ => None
  end.

(** Validation against [ChatRequest] of ai/models.py:
    [message: str = Field(..., min_length=1, max_length=1000)]. *)
Definition models_ChatRequest_validate (b : Body) : option ChatRequest :=
  match body_message b, optional_str (body_session_id b) with
  | Some (JStr m), Some sid =>
      if (Nat.leb 1 (char_count m) && Nat.leb (char_count m) 1000)%bool
      then Some {| message := m; session_id := sid |}
      else None
  | _, _ => None
  end.

(** The outcome of [POST /api/chat] for an authenticated caller. *)
Inductive Reply (DB : Type) :=
| Unprocessable
| Streaming (r : Run DB).
Arguments Unprocessable {DB}.
Arguments Streaming {DB} r.

Section Endpoint.

Variable json_loads : string → result JValue.
Variable DB : Type.
Variable handler : ToolName → string → list (string * JValue) → DB → result string * DB.
Variable kwargs_error : ToolName → JValue → string.
Variable OPENAI_API_KEY : Setting.
Variable SYSTEM_PROMPT : string.
Variable completions_create : nat → list Message → Response.

(** [chat_endpoint]: [current_user] is the id the authentication
    dependency resolved. *)
Definition chat_endpoint (t : Turn) (b : Body) (current_user : string)
    (w : World DB) : Reply DB :=
  match ChatRequest_validate b with
  | None => Unprocessable
  | Some request =>
      Streaming
        (process_chat_stream json_loads DB handler kwargs_error OPENAI_API_KEY
           SYSTEM_PROMPT completions_create t (message request) current_user
           (session_id request) w)
  end.

End Endpoint.

End Routes.

(** ** A concrete environment

    A small task store, parser, handler table and model, on which the
    definitions above can be run. *)

Module Demo.
Import Sessions Config Agent.

(** The double quote. *)
Definition q : string := String (ascii_of_nat 34) EmptyString.

(** [{"title": "buy milk"}] *)
Definition args_milk : string :=
  "{" +:+ q +:+ "title" +:+ q +:+ ": " +:+ q +:+ "buy milk" +:+ q +:+ "}".

(** [{"title": "x", "user_id": "mallory"}] *)
Definition args_spoof : string :=
  "{" +:+ q +:+ "title" +:+ q +:+ ": " +:+ q +:+ "x" +:+ q +:+ ", "
      +:+ q +:+ "user_id" +:+ q +:+ ": " +:+ q +:+ "mallory" +:+ q +:+ "}".

(** [json.loads] on the few texts used here; any other text is taken to
    be malformed. *)
Definition json_loads (s : string) : result JValue :=
  if String.eqb s "{}" then Ok (JObj [])
  else if String.eqb s args_milk then Ok (JObj [("title", JStr "buy milk")])
  else if String.eqb s args_spoof
       then Ok (JObj [("title", JStr "x"); ("user_id", JStr "mallory")])
  else Raise "Expecting value: line 1 column 1 (char 0)".

(** The task table: owner and title. *)
Definition DB : Type := list (string * string).

Definition handler (h : ToolName) (uid : string) (kwargs : list (string * JValue))
    (d : DB) : result string * DB :=
  match h with
  | create_task =>
      match kwargs with
      | [(k, JStr title)] =>
          if String.eqb k "title"
          then (Ok ("Task created: " +:+ title), d ++ [(uid, title)])
          else (Raise "create_task() got an unexpected keyword argument", d)
      | _ => (Raise "create_task() missing 1 required positional argument: 'title'", d)
      end
  | list_tasks =>
      (Ok (String.concat ", " (map snd (filter (λ r, String.eqb r.1 uid) d))), d)
  | _ => (Raise "connection is closed", d)
  end.

Definition kwargs_error (h : ToolName) (args : JValue) : string :=
  match args with
  | JObj _ => "got multiple values for keyword argument 'user_id'"
  | _ => "argument after ** must be a mapping"
  end.

Definition SYSTEM_PROMPT : string := "You are TaskFlow AI, a helpful task management assistant.".

Definition tool_chunk (id name args : string) : Chunk :=
  {| delta_content := None;
     delta_tool_calls :=
       Some [ {| d_index := Some 0; d_id := Some id;
                 d_function := Some {| fn_name := Some name; fn_arguments := Some args |} |} ] |}.

Definition text_chunk (c : string) : Chunk :=
  {| delta_content := Some c; delta_tool_calls := None |}.

(** A model that calls [create_task] once and then answers. *)
Definition model_milk (iteration : nat) (msgs : list Message) : Response :=
  match iteration with
  | O => {| chunks := [tool_chunk "call_1" "create_task" args_milk]; failure := None |}
  | _ => {| chunks := [text_chunk "Added "; text_chunk "buy milk."]; failure := None |}
  end.

(** A model that answers at once. *)
Definition model_hello (iteration : nat) (msgs : list Message) : Response :=
  {| chunks := [text_chunk "Hello!"]; failure := None |}.

(** A model that asks for [list_tasks] in every round. *)
Definition model_loop (iteration : nat) (msgs : list Message) : Response :=
  {| chunks := [tool_chunk "call_n" "list_tasks" "{}"]; failure := None |}.

(** A model whose second tool call carries arguments that are no JSON. *)
Definition model_garbled (iteration : nat) (msgs : list Message) : Response :=
  {| chunks := [tool_chunk "call_1" "create_task" args_milk;
                mkChunk None
                  (Some [mkDelta (Some 1) (Some "call_2")
                           (Some (mkFunctionDelta (Some "list_tasks") (Some "{oops")))])];
     failure := None |}.




(** A model whose first call creates a task and whose second call arrives
    without arguments text. *)
Definition model_milk_then_empty (iteration : nat) (msgs : list Message)
  : Response :=
  {| chunks := [tool_chunk "call_1" "create_task" args_milk;
                mkChunk None
                  (Some [mkDelta (Some 1) (Some "call_2")
                           (Some (mkFunctionDelta (Some "list_tasks") None))])];
     failure := None |}.


(** What every round does when [settings] has no field [AI_MODEL]: the
    argument [model=settings.AI_MODEL] raises before the call is made. *)
Definition model_no_ai_model (iteration : nat) (msgs : list Message) : Response :=
  {| chunks := []; failure := Some (no_attribute "AI_MODEL") |}.

(** A model whose stream breaks after a tool call has arrived. *)
Definition model_cut (iteration : nat) (msgs : list Message) : Response :=
  {| chunks := [tool_chunk "call_1" "create_task" args_milk];
     failure := Some "Connection error." |}.

(** A model whose stream breaks after one fragment. *)
Definition model_broken (iteration : nat) (msgs : list Message) : Response :=
  {| chunks := [text_chunk "Let me"]; failure := Some "Connection error." |}.

Definition turn0 : Turn :=
  {| t_fetch := 1000; t_user := 1001; t_reply := 5000; uuid4 := "3f0c" |}.

Definition world0 : World DB := mkWorld ∅ [] false.

Definition chat (model : nat → list Message → Response) :=
  process_chat_stream json_loads DB handler kwargs_error (Declared (Some "sk-test"))
    SYSTEM_PROMPT model.

(** A store with one session of [alice], last active at time 0. *)
Definition alice_session : ChatSession :=
  {| session_id := "s1"; user_id := "alice";
     messages := [mkMessage "user" (Some "buy milk") None None;
                  mkMessage "assistant" (Some "Added.") None None];
     created_at := 0; last_activity := 0 |}.

Definition store1 : gmap string ChatSession := {[ "s1" := alice_session ]}.


(** A call whose arguments carry a [user_id]. *)
Definition spoof_call : ToolCall := mkToolCall "c3" "create_task" args_spoof.

(** A session at the cap: 21 entries with contents [A], [B], .., [U]. *)
Definition letter (n : nat) : string := String (ascii_of_nat (65 + n)) EmptyString.

Definition entry (n : nat) : Message :=
  mkMessage (if Nat.even n then "user" else "assistant") (Some (letter n)) None None.

Definition full_session : ChatSession :=
  {| session_id := "s2"; user_id := "alice"; messages := map entry (seq 0 21);
     created_at := 0; last_activity := 0 |}.

(** Two tool calls whose fragments arrive interleaved, index 1 first. *)
Definition interleaved : list Chunk :=
  [ mkChunk None (Some [mkDelta (Some 1) (Some "b") (Some (mkFunctionDelta (Some "list_tasks") None))]);
    mkChunk (Some "On it") (Some [mkDelta (Some 0) (Some "a") (Some (mkFunctionDelta (Some "create_task") (Some "{")))]);
    mkChunk None (Some [mkDelta (Some 1) None (Some (mkFunctionDelta None (Some "{}")));
                        mkDelta (Some 0) None (Some (mkFunctionDelta None (Some "}")))]) ].

(** A message of [n] letters. *)
Fixpoint letters (n : nat) : string :=
  match n with O => EmptyString | S n' => String "a" (letters n') end.

End Demo.

(** ** Vocabulary of the properties *)

Import Sessions Config Agent.

(** A stored entry that is a plain user or assistant text. *)
Definition plain_entry (m : Message) : bool :=
  (String.eqb (role m) "user" || String.eqb (role m) "assistant")
  && match tool_calls m with None => true | Some _ => false end
  && match tool_call_id m with None => true | Some _ => false end.

Definition plain_store (st : gmap string ChatSession) : Prop :=
  ∀ k s, st !! k = Some s → forallb plain_entry (messages s) = true.

Definition count_done (evs : list Event) : nat :=
  length (filter (λ e, is_done e = true) evs).

(** The collected [tool_calls_data] of a response. *)
Definition tool_calls_of (resp : Response) : list ToolCall :=
  map snd (consume_stream (EmptyString, []) (chunks resp)).2.2.

(** The accumulated [full_content] of a response. *)
Definition full_content_of (resp : Response) : string :=
  (consume_stream (EmptyString, []) (chunks resp)).2.1.

(** The content events of a response. *)
Definition content_events_of (resp : Response) : list Event :=
  (consume_stream (EmptyString, []) (chunks resp)).1.

Definition parses (json_loads : string → result JValue) (tc : ToolCall) : bool :=
  match json_loads (tc_arguments tc) with Ok _ => true | Raise _ => false end.

(** The [tool_call] events of the calls whose arguments parse, in call
    order. *)
Definition tool_call_events (json_loads : string → result JValue)
    (tcs : list ToolCall) : list Event :=
  omap (λ tc, match json_loads (tc_arguments tc) with
              | Ok args => Some (EvToolCall (tc_id tc) (tc_name tc) args)
              | Raise _ => None
              end) tcs.

(** A model that asks for tools in every round, with arguments that parse. *)
Definition always_tools (json_loads : string → result JValue)
    (model : nat → list Message → Response) : Prop :=
  ∀ i msgs,
    failure (model i msgs) = None
    ∧ tool_calls_of (model i msgs) ≠ []
    ∧ forallb (parses json_loads) (tool_calls_of (model i msgs)) = true.

Section Vocabulary.

Variable json_loads : string → result JValue.
Variable DB : Type.
Variable handler : ToolName → string → list (string * JValue) → DB → result string * DB.
Variable kwargs_error : ToolName → JValue → string.
Variable OPENAI_API_KEY : Setting.
Variable SYSTEM_PROMPT : string.

(** The [result] texts of a round's tool calls, in call order. *)
Fixpoint tool_results (uid : string) (tcs : list ToolCall) (d : DB) : list string :=
  match tcs with
  | [] => []
  | tc :: rest =>
      let '(res, d') := execute_tool json_loads DB handler kwargs_error uid tc d in
      res :: tool_results uid rest d'
  end.

(** The states the process can be in: it starts with no session, serves
    chat turns against any model, deletes sessions, and the task routes
    change the task store. *)
Inductive reachable : World DB → Prop :=
| reach_start d : reachable (mkWorld ∅ d false)
| reach_chat w model t message uid sid :
    reachable w →
    reachable (world (process_chat_stream json_loads DB handler kwargs_error
                        OPENAI_API_KEY SYSTEM_PROMPT model t message uid sid w))
| reach_delete w k :
    reachable w →
    reachable (mkWorld (delete_session k (sessions w)).2 (db w) (client w))
| reach_tasks w d :
    reachable w →
    reachable (mkWorld (sessions w) d (client w)).

End Vocabulary.

(** ** Sequences of operations *)

(** One call [add_message(role, content, tool_calls)] at clock [a_now]. *)
Record Append := mkAppend {
  a_now : Z;
  a_role : string;
  a_content : option string;
  a_tool_calls : option (list WireToolCall)
}.

(** The dict that the call appends. *)
Definition appended (a : Append) : Message :=
  mkMessage (a_role a) (a_content a)
    (if truthy_opt_list (a_tool_calls a) then a_tool_calls a else None) None.

(** The calls of the list, one after the other. *)
Definition add_messages (l : list Append) (s : ChatSession) : ChatSession :=
  fold_left (λ s a, add_message (a_now a) (a_role a) (a_content a) (a_tool_calls a) s)
    l s.

(** Entry 0 and the 20 latest entries of a history of more than 21. *)
Definition window (h : list Message) : list Message :=
  if (21 <? length h)%nat then take 1 h ++ drop (length h - 20) h else h.

(** The tool-call fragments of a stream, in arrival order. *)
Definition deltas_of (chs : list Chunk) : list ToolCallDelta :=
  concat (map (λ ch, default [] (delta_tool_calls ch)) chs).

(** The non-empty content fragments of a stream, in arrival order. *)
Definition contents_of (chs : list Chunk) : list string :=
  omap (λ ch, match delta_content ch with
              | Some c => if truthy_str c then Some c else None
              | None => None
              end) chs.

(** The argument text that arrived for index [i]. *)
Definition fragments_for (i : Z) (ds : list ToolCallDelta) : string :=
  String.concat EmptyString
    (omap (λ d, if bool_decide (d_index d = Some i)
                then match d_function d with
                     | Some f => fn_arguments f
                     | None => None
                     end
                else None) ds).

Definition event_content (e : Event) : string :=
  match e with EvContent c _ => c | _ => EmptyString end.

(** [current_tools.get(i)] *)
Fixpoint assoc_index (i : Z) (cur : list (Z * ToolCall)) : option ToolCall :=
  match cur with
  | [] => None
  | (j, t) :: rest => if Z.eqb j i then Some t else assoc_index i rest
  end.

Section Effects.

Variable json_loads : string → result JValue.
Variable DB : Type.
Variable handler : ToolName → string → list (string * JValue) → DB → result string * DB.
Variable kwargs_error : ToolName → JValue → string.

(** The task store after the calls of the list have run, in order. *)
Fixpoint db_after (uid : string) (tcs : list ToolCall) (d : DB) : DB :=
  match tcs with
  | [] => d
  | tc :: rest =>
      db_after uid rest (execute_tool json_loads DB handler kwargs_error uid tc d).2
  end.

End Effects.

(** ** todo-app: models.py, storage.py, manager.py *)

Module TodoApp.
Import Agent.

Record Todo := mkTodo {
  title : string;
  description : string;
  completed : bool;
  id : string;
  created_at : Z;
  updated_at : Z
}.

(** What the default factories of a new [Todo] draw: the first eight
    characters of a [uuid4] and two readings of the clock. *)
Record Fresh := mkFresh {
  fresh_id : string;
  fresh_created_at : Z;
  fresh_updated_at : Z
}.

(** [Todo(title=title, description=description)] *)
Definition new_todo (f : Fresh) (ttl desc : string) : Todo :=
  {| title := ttl; description := desc; completed := false; id := fresh_id f;
     created_at := fresh_created_at f; updated_at := fresh_updated_at f |}.

Definition mark_complete (now : Z) (t : Todo) : Todo :=
  {| title := title t; description := description t; completed := true; id := id t;
     created_at := created_at t; updated_at := now |}.

Definition mark_incomplete (now : Z) (t : Todo) : Todo :=
  {| title := title t; description := description t; completed := false; id := id t;
     created_at := created_at t; updated_at := now |}.

Definition toggle_status (now : Z) (t : Todo) : Todo :=
  {| title := title t; description := description t; completed := negb (completed t);
     id := id t; created_at := created_at t; updated_at := now |}.

Definition update (now : Z) (ttl desc : option string) (t : Todo) : Todo :=
  {| title := match ttl with Some x => x | None => title t end;
     description := match desc with Some x => x | None => description t end;
     completed := completed t; id := id t;
     created_at := created_at t; updated_at := now |}.

(** A task dict of the storage file: each key is present or not. *)
Record TaskDict := mkTaskDict {
  k_id : option string;
  k_title : option string;
  k_description : option string;
  k_completed : option bool;
  k_created_at : option string;
  k_updated_at : option string
}.

(** What iterating the value under [tasks] yields: a JSON object, or a
    value that is no object (an item of another type; a key, when the value
    under [tasks] is itself an object; a character, when it is a string),
    on which [data["id"]] raises the [TypeError] of the given text. *)
Inductive Item :=
| Object (data : TaskDict)
| NotObject (e : string).

(** The value under the key [tasks] of the stored object: no such key; a
    value that cannot be iterated ([null], a number, a boolean), with the
    text of the [TypeError]; or the items that iterating it yields. *)
Inductive Tasks :=
| NoTasksKey
| NotIterable (e : string)
| Items (l : list Item).

(** The storage file, by what [load] meets on it:
    - [Missing]: [exists()] is false;
    - [Unreadable]: [open] raises an [OSError] (no permission, a directory);
    - [Undecodable e]: reading or parsing raises an exception that is no
      [OSError] and no [JSONDecodeError], such as the [UnicodeDecodeError]
      of bytes that are not UTF-8;
    - [NotJson]: the text is not JSON, [json.load] raises [JSONDecodeError];
    - [NotAnObject e]: JSON that is no object, on which [data.get] raises
      the [AttributeError] of text [e];
    - [Doc]: an object, with what it holds under [version] and [tasks]. *)
Inductive File :=
| Missing
| Unreadable
| Undecodable (e : string)
| NotJson
| NotAnObject (e : string)
| Doc (version : option string) (tasks : Tasks).

Record TodoStorage := mkStorage {
  file : File;
  writable : bool      (* whether opening the file for writing succeeds *)
}.

Record TodoManager := mkManager {
  storage : TodoStorage;
  todos : list Todo
}.

(** Two tasks that differ at most in [updated_at]. *)
Definition same_task (a b : Todo) : Prop :=
  title a = title b ∧ description a = description b ∧ completed a = completed b
  ∧ id a = id b ∧ created_at a = created_at b.

Section Storage.

(** [datetime.isoformat] and [datetime.fromisoformat]. *)
Variable isoformat : Z → string.
Variable fromisoformat : string → result Z.

Definition to_dict (t : Todo) : TaskDict :=
  {| k_id := Some (id t); k_title := Some (title t);
     k_description := Some (description t); k_completed := Some (completed t);
     k_created_at := Some (isoformat (created_at t));
     k_updated_at := Some (isoformat (updated_at t)) |}.

(** [Todo.from_dict]: a missing [id], [title], [created_at] or
    [updated_at] is a [KeyError]; the arguments are evaluated in the order
    of the call. *)
Definition from_dict (data : TaskDict) : result Todo :=
  match k_id data with
  | None => Raise "'id'"
  | Some i =>
      match k_title data with
      | None => Raise "'title'"
      | Some ttl =>
          let desc := match k_description data with Some x => x | None => EmptyString end in
          let done := match k_completed data with Some x => x | None => false end in
          match k_created_at data with
          | None => Raise "'created_at'"
          | Some c =>
              match fromisoformat c with
              | Raise e => Raise e
              | Ok created =>
                  match k_updated_at data with
                  | None => Raise "'updated_at'"
                  | Some u =>
                      match fromisoformat u with
                      | Raise e => Raise e
                      | Ok updated =>
                          Ok {| title := ttl; description := desc; completed := done;
                                id := i; created_at := created; updated_at := updated |}
                      end
                  end
              end
          end
      end
  end.

(** The clock readings of a task survive the trip through their text. *)
Definition iso_ok (t : Todo) : Prop :=
  fromisoformat (isoformat (created_at t)) = Ok (created_at t)
  ∧ fromisoformat (isoformat (updated_at t)) = Ok (updated_at t).

(** [Todo.from_dict(task)] on an item of the list. *)
Definition from_item (task : Item) : result Todo :=
  match task with
  | Object data => from_dict data
  | NotObject e => Raise e
  end.

(** [[Todo.from_dict(task) for task in tasks_data]] *)
Fixpoint from_dicts (l : list Item) : result (list Todo) :=
  match l with
  | [] => Ok []
  | task :: rest =>
      match from_item task with
      | Raise e => Raise e
      | Ok t =>
          match from_dicts rest with
          | Raise e => Raise e
          | Ok ts => Ok (t :: ts)
          end
      end
  end.

(** [TodoStorage.save]: the new storage and the returned flag. *)
Definition save (l : list Todo) (st : TodoStorage) : TodoStorage * bool :=
  if writable st
  then ({| file := Doc (Some "1.0") (Items (map (λ todo, Object (to_dict todo)) l));
           writable := writable st |},
        true)
  else (st, false).

(** [TodoStorage.load]: only [IOError] (which is [OSError]) and
    [JSONDecodeError] are caught; any other exception of the read, of
    [data.get], of the iteration or of [from_dict] leaves the method. *)
Definition load (st : TodoStorage) : result (list Todo) :=
  match file st with
  | Missing => Ok []
  | Unreadable => Ok []
  | Undecodable e => Raise e
  | NotJson => Ok []
  | NotAnObject e => Raise e
  | Doc _ NoTasksKey => Ok []
  | Doc _ (NotIterable e) => Raise e
  | Doc _ (Items l) => from_dicts l
  end.

(** [TodoManager.__init__] *)
Definition init (st : TodoStorage) : result TodoManager :=
  match load st with
  | Ok l => Ok {| storage := st; todos := l |}
  | Raise e => Raise e
  end.

Definition _save (m : TodoManager) : TodoManager :=
  {| storage := (save (todos m) (storage m)).1; todos := todos m |}.

Definition add_task (f : Fresh) (ttl desc : string) (m : TodoManager)
  : Todo * TodoManager :=
  let todo := new_todo f ttl desc in
  (todo, _save {| storage := storage m; todos := todos m ++ [todo] |}).

(** [for todo in self.todos: if todo.id == task_id: return todo] *)
Fixpoint get_task_by_id (task_id : string) (l : list Todo) : option Todo :=
  match l with
  | [] => None
  | todo :: rest =>
      if String.eqb (id todo) task_id then Some todo else get_task_by_id task_id rest
  end.

(** The list after [self.todos.pop(i)] at the first match. *)
Fixpoint pop_first (task_id : string) (l : list Todo) : list Todo :=
  match l with
  | [] => []
  | todo :: rest =>
      if String.eqb (id todo) task_id then rest else todo :: pop_first task_id rest
  end.

(** The list after a method call on the object that [get_task_by_id]
    returned. *)
Fixpoint on_first (g : Todo → Todo) (task_id : string) (l : list Todo) : list Todo :=
  match l with
  | [] => []
  | todo :: rest =>
      if String.eqb (id todo) task_id then g todo :: rest
      else todo :: on_first g task_id rest
  end.

Definition not_found (task_id : string) : string :=
  "Task ID '" +:+ task_id +:+ "' not found.".

Definition delete_task (task_id : string) (m : TodoManager)
  : (bool * string) * TodoManager :=
  match get_task_by_id task_id (todos m) with
  | Some deleted =>
      ((true, "Task '" +:+ title deleted +:+ "' deleted!"),
       _save {| storage := storage m; todos := pop_first task_id (todos m) |})
  | None => ((false, not_found task_id), m)
  end.

Definition update_task (now : Z) (task_id : string) (ttl desc : option string)
    (m : TodoManager) : (bool * string) * TodoManager :=
  match get_task_by_id task_id (todos m) with
  | Some todo =>
      ((true, "Task '" +:+ title (update now ttl desc todo) +:+ "' updated!"),
       _save {| storage := storage m;
                todos := on_first (update now ttl desc) task_id (todos m) |})
  | None => ((false, not_found task_id), m)
  end.

Definition toggle_task (now : Z) (task_id : string) (m : TodoManager)
  : (bool * string) * TodoManager :=
  match get_task_by_id task_id (todos m) with
  | Some todo =>
      ((true, "Task marked as "
                +:+ (if completed (toggle_status now todo) then "complete" else "incomplete")
                +:+ "!"),
       _save {| storage := storage m;
                todos := on_first (toggle_status now) task_id (todos m) |})
  | None => ((false, not_found task_id), m)
  end.

Definition get_all_tasks (m : TodoManager) : list Todo := todos m.

Definition get_pending_tasks (m : TodoManager) : list Todo :=
  List.filter (λ t, negb (completed t)) (todos m).

Definition get_completed_tasks (m : TodoManager) : list Todo :=
  List.filter (λ t, completed t) (todos m).

(** [(total, completed, pending)]; Python integers. *)
Definition get_task_count (m : TodoManager) : Z * Z * Z :=
  let total := Z.of_nat (length (todos m)) in
  let done := Z.of_nat (length (get_completed_tasks m)) in
  (total, done, total - done).

(** The count in the message and the new manager. *)
Definition clear_completed_tasks (m : TodoManager) : Z * TodoManager :=
  let count := Z.of_nat (length (todos m)) - Z.of_nat (length (get_pending_tasks m)) in
  (count, _save {| storage := storage m; todos := get_pending_tasks m |}).

(** The mutating calls of the manager. *)
Inductive Op :=
| OpAdd (f : Fresh) (ttl desc : string)
| OpDelete (task_id : string)
| OpUpdate (now : Z) (task_id : string) (ttl desc : option string)
| OpToggle (now : Z) (task_id : string)
| OpClear.

Definition apply_op (o : Op) (m : TodoManager) : TodoManager :=
  match o with
  | OpAdd f ttl desc => (add_task f ttl desc m).2
  | OpDelete k => (delete_task k m).2
  | OpUpdate now k ttl desc => (update_task now k ttl desc m).2
  | OpToggle now k => (toggle_task now k m).2
  | OpClear => (clear_completed_tasks m).2
  end.

Definition apply_ops (l : list Op) (m : TodoManager) : TodoManager :=
  fold_left (λ m o, apply_op o m) l m.

End Storage.

End TodoApp.

(** ** routes/tasks.py: sorting rank and pagination *)

Module TaskRoutes.

(** [get_priority_order] *)
Definition get_priority_order (priority : string) : Z :=
  if String.eqb priority "HIGH" then 1
  else if String.eqb priority "MEDIUM" then 2
  else if String.eqb priority "LOW" then 3
  else 2.

(** [offset = (page - 1) * pageSize] *)
Definition offset (page pageSize : Z) : Z := (page - 1) * pageSize.

(** [total_pages = (total + pageSize - 1) // pageSize if total > 0 else 1] *)
Definition total_pages (total pageSize : Z) : Z :=
  if 0 <? total then (total + pageSize - 1) / pageSize else 1.

(** *** The SQL that [list_tasks] and [update_task] build

    A query text is the list of its pieces: literal text, and [$n] for a
    placeholder that an f-string writes from a counter.  The white space of
    the multi-line literals is written as single spaces. *)

Inductive Tok :=
| Lit (s : string)
| Ph (n : Z).

Inductive SqlValue :=
| VStr (s : string)
| VInt (z : Z)
| VTime (z : Z)
| VTags (l : list string).

Inductive Status := PENDING | IN_PROGRESS | COMPLETED.
Inductive Priority := HIGH | MEDIUM | LOW.

Definition status_value (x : Status) : string :=
  match x with
  | PENDING => "PENDING" | IN_PROGRESS => "IN_PROGRESS" | COMPLETED => "COMPLETED"
  end.

Definition priority_value (x : Priority) : string :=
  match x with HIGH => "HIGH" | MEDIUM => "MEDIUM" | LOW => "LOW" end.

(** The double quote. *)
Definition dq : string := String (ascii_of_nat 34) EmptyString.

(** [sep.join(parts)] *)
Fixpoint join (sep : string) (parts : list (list Tok)) : list Tok :=
  match parts with
  | [] => []
  | [x] => x
  | x :: rest => x ++ Lit sep :: join sep rest
  end.

Definition columns : string :=
  "id, title, description, status, priority, " +:+ dq +:+ "dueDate" +:+ dq
  +:+ ", tags, " +:+ dq +:+ "createdAt" +:+ dq +:+ ", " +:+ dq +:+ "updatedAt" +:+ dq
  +:+ ", " +:+ dq +:+ "userId" +:+ dq.

(** The two queries of [list_tasks] with their parameter lists: the count
    query, and the page query.  [order_clause] is the text computed from
    [sortBy] and [sortOrder]. *)
Record ListSql := mkListSql {
  count_query : list Tok;
  count_params : list SqlValue;
  page_query : list Tok;
  page_params : list SqlValue
}.

Definition list_tasks_sql (user_id : string) (search : option string)
    (status_filter : option Status) (priority_filter : option Priority)
    (tag : option string) (order_clause : string) (page pageSize : Z) : ListSql :=
  let conditions := [[Lit (dq +:+ "userId" +:+ dq +:+ " = "); Ph 1]] in
  let params := [VStr user_id] in
  let param_count := 1 in
  let '(conditions, params, param_count) :=
    match search with
    | Some x =>
        if truthy_str x then
          (conditions ++ [[Lit "(title ILIKE "; Ph (param_count + 1);
                          Lit " OR description ILIKE "; Ph (param_count + 1); Lit ")"]],
           params ++ [VStr ("%" +:+ x +:+ "%")], param_count + 1)
        else (conditions, params, param_count)
    | None => (conditions, params, param_count)
    end in
  let '(conditions, params, param_count) :=
    match status_filter with
    | Some x =>
        (conditions ++ [[Lit "status = "; Ph (param_count + 1)]],
         params ++ [VStr (status_value x)], param_count + 1)
    | None => (conditions, params, param_count)
    end in
  let '(conditions, params, param_count) :=
    match priority_filter with
    | Some x =>
        (conditions ++ [[Lit "priority = "; Ph (param_count + 1)]],
         params ++ [VStr (priority_value x)], param_count + 1)
    | None => (conditions, params, param_count)
    end in
  let '(conditions, params, param_count) :=
    match tag with
    | Some x =>
        if truthy_str x then
          (conditions ++ [[Ph (param_count + 1); Lit " = ANY(tags)"]],
           params ++ [VStr x], param_count + 1)
        else (conditions, params, param_count)
    | None => (conditions, params, param_count)
    end in
  let where_clause := join " AND " conditions in
  {| count_query := Lit "SELECT COUNT(*) FROM task WHERE " :: where_clause;
     count_params := params;
     page_query :=
       Lit ("SELECT " +:+ columns +:+ " FROM task WHERE ") :: where_clause
       ++ [Lit (" ORDER BY " +:+ order_clause +:+ " LIMIT "); Ph (param_count + 1);
           Lit " OFFSET "; Ph (param_count + 2)];
     page_params := params ++ [VInt pageSize; VInt (offset page pageSize)] |}.

(** [TaskUpdate] *)
Record TaskUpdate := mkTaskUpdate {
  u_title : option string;
  u_description : option string;
  u_status : option Status;
  u_priority : option Priority;
  u_dueDate : option Z;
  u_tags : option (list string)
}.

(** The query and parameters that [update_task] builds once the task was
    found for the caller; [None] is the 400 of an update without fields. *)
Definition update_task_sql (task_id user_id : string) (now : Z) (u : TaskUpdate)
  : option (list Tok * list SqlValue) :=
  let updates : list (list Tok) := [] in
  let params : list SqlValue := [] in
  let param_count := 0 in
  let '(updates, params, param_count) :=
    match u_title u with
    | Some x => (updates ++ [[Lit "title = "; Ph (param_count + 1)]],
                 params ++ [VStr x], param_count + 1)
    | None => (updates, params, param_count)
    end in
  let '(updates, params, param_count) :=
    match u_description u with
    | Some x => (updates ++ [[Lit "description = "; Ph (param_count + 1)]],
                 params ++ [VStr x], param_count + 1)
    | None => (updates, params, param_count)
    end in
  let '(updates, params, param_count) :=
    match u_status u with
    | Some x => (updates ++ [[Lit "status = "; Ph (param_count + 1)]],
                 params ++ [VStr (status_value x)], param_count + 1)
    | None => (updates, params, param_count)
    end in
  let '(updates, params, param_count) :=
    match u_priority u with
    | Some x => (updates ++ [[Lit "priority = "; Ph (param_count + 1)]],
                 params ++ [VStr (priority_value x)], param_count + 1)
    | None => (updates, params, param_count)
    end in
  let '(updates, params, param_count) :=
    match u_dueDate u with
    | Some x => (updates ++ [[Lit (dq +:+ "dueDate" +:+ dq +:+ " = "); Ph (param_count + 1)]],
                 params ++ [VTime x], param_count + 1)
    | None => (updates, params, param_count)
    end in
  let '(updates, params, param_count) :=
    match u_tags u with
    | Some x => (updates ++ [[Lit "tags = "; Ph (param_count + 1)]],
                 params ++ [VTags x], param_count + 1)
    | None => (updates, params, param_count)
    end in
  match updates with
  | [] => None
  | _ :: _ =>
      let param_count := param_count + 1 in
      let updates := updates ++ [[Lit (dq +:+ "updatedAt" +:+ dq +:+ " = "); Ph param_count]] in
      let params := params ++ [VTime now] in
      let param_count := param_count + 1 in
      let task_id_param := param_count in
      let param_count := param_count + 1 in
      let user_id_param := param_count in
      let params := params ++ [VStr task_id; VStr user_id] in
      Some (Lit "UPDATE task SET " :: join ", " updates
            ++ [Lit " WHERE id = "; Ph task_id_param;
                Lit (" AND " +:+ dq +:+ "userId" +:+ dq +:+ " = "); Ph user_id_param;
                Lit (" RETURNING " +:+ columns)],
            params)
  end.

(** A query with its parameters put in the places of the placeholders;
    [None] marks a placeholder without a parameter. *)
Inductive Bound :=
| BLit (s : string)
| BVal (v : option SqlValue).

Definition bind (params : list SqlValue) (q : list Tok) : list Bound :=
  map (λ t, match t with
            | Lit x => BLit x
            | Ph n => BVal (if 1 <=? n then params !! Z.to_nat (n - 1) else None)
            end) q.

(** The conditions that [list_tasks] means, each with the value it
    compares with. *)
Definition list_tasks_meaning (user_id : string) (search : option string)
    (status_filter : option Status) (priority_filter : option Priority)
    (tag : option string) : list (list Bound) :=
  [[BLit (dq +:+ "userId" +:+ dq +:+ " = "); BVal (Some (VStr user_id))]]
  ++ match search with
     | Some x =>
         if truthy_str x
         then [[BLit "(title ILIKE "; BVal (Some (VStr ("%" +:+ x +:+ "%")));
                BLit " OR description ILIKE "; BVal (Some (VStr ("%" +:+ x +:+ "%")));
                BLit ")"]]
         else []
     | None => []
     end
  ++ match status_filter with
     | Some x => [[BLit "status = "; BVal (Some (VStr (status_value x)))]]
     | None => []
     end
  ++ match priority_filter with
     | Some x => [[BLit "priority = "; BVal (Some (VStr (priority_value x)))]]
     | None => []
     end
  ++ match tag with
     | Some x => if truthy_str x then [[BVal (Some (VStr x)); BLit " = ANY(tags)"]] else []
     | None => []
     end.

(** The assignments that [update_task] means, each with its value. *)
Definition update_task_meaning (now : Z) (u : TaskUpdate) : list (list Bound) :=
  match u_title u with
  | Some x => [[BLit "title = "; BVal (Some (VStr x))]] | None => [] end
  ++ match u_description u with
     | Some x => [[BLit "description = "; BVal (Some (VStr x))]] | None => [] end
  ++ match u_status u with
     | Some x => [[BLit "status = "; BVal (Some (VStr (status_value x)))]] | None => [] end
  ++ match u_priority u with
     | Some x => [[BLit "priority = "; BVal (Some (VStr (priority_value x)))]]
     | None => [] end
  ++ match u_dueDate u with
     | Some x => [[BLit (dq +:+ "dueDate" +:+ dq +:+ " = "); BVal (Some (VTime x))]]
     | None => [] end
  ++ match u_tags u with
     | Some x => [[BLit "tags = "; BVal (Some (VTags x))]] | None => [] end
  ++ [[BLit (dq +:+ "updatedAt" +:+ dq +:+ " = "); BVal (Some (VTime now))]].

(** Whether the query has the placeholder [$k]. *)
Definition uses (q : list Tok) (k : nat) : bool :=
  existsb (λ t, match t with Ph n => Z.eqb n (Z.of_nat k) | Lit _ => false end) q.

(** [sep.join(parts)] on queries with their parameters in place. *)
Fixpoint join_bound (sep : string) (parts : list (list Bound)) : list Bound :=
  match parts with
  | [] => []
  | [x] => x
  | x :: rest => x ++ BLit sep :: join_bound sep rest
  end.

End TaskRoutes.

(** ** A concrete todo list *)

Module TodoDemo.
Import Agent.

(** Clock readings written in decimal stand for the ISO texts. *)
Definition isoformat (z : Z) : string := NilEmpty.string_of_int (Z.to_int z).

Definition fromisoformat (s : string) : result Z :=
  match NilEmpty.int_of_string s with
  | Some d => Ok (Z.of_int d)
  | None => Raise "Invalid isoformat string"
  end.

Definition milk : TodoApp.Todo := TodoApp.mkTodo "buy milk" "2 litres" false "a1b2c3d4" 10 10.
Definition rent : TodoApp.Todo := TodoApp.mkTodo "pay rent" EmptyString true "0badcafe" 20 25.
Definition twin : TodoApp.Todo := TodoApp.mkTodo "call mum" EmptyString false "a1b2c3d4" 30 30.

Definition disk : TodoApp.TodoStorage := TodoApp.mkStorage TodoApp.Missing true.

Definition manager : TodoApp.TodoManager := TodoApp.mkManager disk [milk; rent; twin].

Definition ops : list TodoApp.Op :=
  [TodoApp.OpAdd (TodoApp.mkFresh "a1b2c3d4" 10 10) "buy milk" "2 litres";
   TodoApp.OpAdd (TodoApp.mkFresh "0badcafe" 20 21) "pay rent" EmptyString;
   TodoApp.OpToggle 25 "0badcafe";
   TodoApp.OpUpdate 26 "a1b2c3d4" None (Some "3 litres");
   TodoApp.OpDelete "ffffffff";
   TodoApp.OpClear].

(** A task dict without a title. *)
Definition untitled : TodoApp.TaskDict :=
  TodoApp.mkTaskDict (Some "deadbeef") None None None (Some "1") (Some "1").

End TodoDemo.

(** ** The session store *)

Lemma first1_length l : l ≠ [] → length (first1 l) = 1%nat.
Proof. by destruct l. Qed.

Lemma last20_length l : (20 ≤ length l)%nat → length (last20 l) = 20%nat.
Proof. intros H. unfold last20. rewrite length_drop. lia. Qed.

Lemma trim_small l : (length l ≤ 21)%nat → trim l = l.
Proof.
  intros H. unfold trim.
  destruct (Nat.ltb_spec 21 (length l)); [lia | done].
Qed.

Lemma trim_large l :
  (21 < length l)%nat → trim l = take 1 l ++ drop (length l - 20) l.
Proof.
  intros H. unfold trim.
  destruct (Nat.ltb_spec 21 (length l)); [| lia].
  destruct l; [simpl in H; lia | done].
Qed.

Lemma trim_length l : (length (trim l) ≤ 21)%nat.
Proof.
  destruct (Nat.le_gt_cases (length l) 21) as [H|H].
  - by rewrite trim_small.
  - rewrite trim_large by done.
    rewrite length_app, length_take, length_drop. lia.
Qed.

Lemma trim_head l : head (trim l) = head l.
Proof.
  destruct (Nat.le_gt_cases (length l) 21) as [H|H].
  - by rewrite trim_small.
  - rewrite trim_large by done. destruct l; [simpl in H; lia | done].
Qed.

Lemma trim_subseteq l : trim l ⊆ l.
Proof.
  destruct (Nat.le_gt_cases (length l) 21) as [H|H].
  - by rewrite trim_small.
  - rewrite trim_large by done. intros x Hx.
    apply elem_of_app in Hx as [Hx|Hx].
    + by apply (subseteq_take 1 l).
    + by apply (subseteq_drop (length l - 20) l).
Qed.

Lemma trim_forallb (p : Message → bool) l :
  forallb p l = true → forallb p (trim l) = true.
Proof.
  rewrite !forallb_forall. intros H x Hx.
  apply H, list_elem_of_In, trim_subseteq. by apply list_elem_of_In.
Qed.

Lemma add_message_length now r c tcs s :
  (length (messages (add_message now r c tcs s)) ≤ 21)%nat.
Proof. apply trim_length. Qed.

Lemma add_message_head now r c tcs s m0 :
  head (messages s) = Some m0 →
  head (messages (add_message now r c tcs s)) = Some m0.
Proof.
  intros H. simpl. rewrite trim_head.
  destruct (messages s); [done | by simpl in *].
Qed.

(** Past the cap, the list becomes entry 0 followed by the 20 most recent
    entries, the new one included. *)
Lemma add_message_trims now r c tcs s :
  (21 ≤ length (messages s))%nat →
  let l := messages s ++ [mkMessage r c (if truthy_opt_list tcs then tcs else None) None] in
  messages (add_message now r c tcs s) = take 1 l ++ drop (length l - 20) l.
Proof.
  intros H l. simpl. apply trim_large. unfold l. rewrite length_app. simpl. lia.
Qed.

Lemma add_message_plain now r c s :
  (r = "user" ∨ r = "assistant") →
  forallb plain_entry (messages s) = true →
  forallb plain_entry (messages (add_message now r c None s)) = true.
Proof.
  intros Hr H. simpl. apply trim_forallb. rewrite forallb_app, H. simpl.
  unfold plain_entry. simpl. by destruct Hr as [-> | ->].
Qed.

Lemma cleanup_lookup now st k s :
  _cleanup_expired_sessions now st !! k = Some s ↔
  st !! k = Some s ∧ is_expired now 24 s = false.
Proof. unfold _cleanup_expired_sessions. by rewrite map_lookup_filter_Some. Qed.

Lemma cleanup_plain now st :
  plain_store st → plain_store (_cleanup_expired_sessions now st).
Proof. intros H k s Hk. apply cleanup_lookup in Hk as [Hk _]. eauto. Qed.

Lemma get_or_create_cases now uuid uid sid st :
  let r := get_or_create_session now uuid uid sid st in
  (∃ k, sid = Some k ∧ truthy_str k = true
        ∧ _cleanup_expired_sessions now st !! k = Some r.1
        ∧ user_id r.1 = uid ∧ is_expired now 24 r.1 = false
        ∧ r.2 = _cleanup_expired_sessions now st)
  ∨ (r = (new_session uuid now uid,
          <[uuid := new_session uuid now uid]> (_cleanup_expired_sessions now st))).
Proof.
  unfold get_or_create_session. simpl.
  destruct sid as [k|]; [| by right].
  destruct (truthy_str k) eqn:Hk; [| by right].
  destruct (_cleanup_expired_sessions now st !! k) as [s|] eqn:Hs; [| by right].
  destruct (bool_decide (user_id s = uid)) eqn:Hu; simpl; [| by right].
  destruct (is_expired now 24 s) eqn:He; simpl; [by right |].
  left. exists k. apply bool_decide_eq_true in Hu. simpl. eauto 10.
Qed.

(** C5: [get_or_create_session] hands back the stored session exactly when
    the id is present, the session has not expired and it belongs to the
    caller; otherwise it creates (and stores) a fresh session of the
    caller; the session it returns always belongs to the caller.  Stores
    hold no session under the empty id, as ids are [uuid4] texts. *)
Theorem C5_get_or_create_session now uuid uid sid (st : gmap string ChatSession) :
  st !! EmptyString = None →
  let r := get_or_create_session now uuid uid sid st in
  (∀ k s, sid = Some k → st !! k = Some s → user_id s = uid →
          is_expired now 24 s = false →
          r = (s, _cleanup_expired_sessions now st))
  ∧ ((¬ ∃ k s, sid = Some k ∧ st !! k = Some s ∧ user_id s = uid
               ∧ is_expired now 24 s = false) →
     r = (new_session uuid now uid,
          <[uuid := new_session uuid now uid]> (_cleanup_expired_sessions now st)))
  ∧ user_id r.1 = uid.
Proof.
  intros Hempty r. split; [| split].
  - intros k s -> Hk Hu He. subst r. unfold get_or_create_session. simpl.
    assert (truthy_str k = true) as ->.
    { destruct k; [congruence | done]. }
    assert (_cleanup_expired_sessions now st !! k = Some s) as ->.
    { by apply cleanup_lookup. }
    rewrite He. simpl. by rewrite bool_decide_eq_true_2.
  - intros Hno. destruct (get_or_create_cases now uuid uid sid st) as [H|H]; [| done].
    destruct H as (k & -> & _ & Hk & Hu & He & _).
    apply cleanup_lookup in Hk as [Hk _]. exfalso. apply Hno. eauto 10.
  - destruct (get_or_create_cases now uuid uid sid st) as [H|H].
    + by destruct H as (k & _ & _ & _ & Hu & _).
    + subst r. by rewrite H.
Qed.

(** ** The orchestration loop *)

Section LoopFacts.

Variable json_loads : string → result JValue.
Variable DB : Type.
Variable handler : ToolName → string → list (string * JValue) → DB → result string * DB.
Variable kwargs_error : ToolName → JValue → string.
Variable OPENAI_API_KEY : Setting.
Variable SYSTEM_PROMPT : string.
Variable model : nat → list Message → Response.

Local Abbreviation exec := (execute_tool json_loads DB handler kwargs_error).
Local Abbreviation dispatch := (dispatch_tools json_loads DB handler kwargs_error).
Local Abbreviation results := (tool_results json_loads DB handler kwargs_error).
Local Abbreviation round := (run_round json_loads DB handler kwargs_error model).
Local Abbreviation loop := (tool_loop json_loads DB handler kwargs_error model).
Local Abbreviation chat :=
  (process_chat_stream json_loads DB handler kwargs_error OPENAI_API_KEY
     SYSTEM_PROMPT model).
Local Abbreviation turn := (open_turn DB).

(** *** Events of the stream and of the dispatch *)

Lemma consume_chunk_content acc ch :
  forallb is_content (consume_chunk acc ch).1 = true.
Proof.
  destruct acc as [full cur]. unfold consume_chunk.
  destruct (delta_content ch) as [c|]; [destruct (truthy_str c) |]; done.
Qed.

Lemma consume_stream_content chs : ∀ acc,
  forallb is_content (consume_stream acc chs).1 = true.
Proof.
  induction chs as [|ch chs IH]; intros acc; [done |].
  simpl. pose proof (consume_chunk_content acc ch) as Hc.
  destruct (consume_chunk acc ch) as [evs acc'].
  specialize (IH acc'). destruct (consume_stream acc' chs) as [evs' acc''].
  simpl in *. by rewrite forallb_app, Hc, IH.
Qed.

Lemma dispatch_events uid tcs : ∀ msgs d,
  match dispatch uid tcs msgs d with
  | Dispatched evs _ _ | DispatchRaised evs _ _ => forallb is_tool_call evs = true
  end.
Proof.
  induction tcs as [|tc tcs IH]; intros msgs d; [done |].
  simpl. destruct (json_loads (tc_arguments tc)) as [args|e]; [| done].
  destruct (exec uid tc d) as [res d'].
  specialize (IH (msgs ++ [tool_message tc res]) d').
  by destruct (dispatch uid tcs _ d').
Qed.

(** When every call's arguments parse, the dispatch runs to its end: one
    [tool_call] event and one [tool] message per call, in call order. *)
Lemma dispatch_parsed uid tcs : ∀ msgs d,
  forallb (parses json_loads) tcs = true →
  ∃ evs d',
    dispatch uid tcs msgs d
    = Dispatched evs (msgs ++ zip_with tool_message tcs (results uid tcs d)) d'
    ∧ forallb is_tool_call evs = true ∧ length evs = length tcs.
Proof.
  induction tcs as [|tc tcs IH]; intros msgs d Hp.
  - exists [], d. by rewrite app_nil_r.
  - simpl in Hp. apply andb_true_iff in Hp as [Hp1 Hp2].
    unfold parses in Hp1. simpl.
    destruct (json_loads (tc_arguments tc)) as [args|e]; [| done].
    destruct (exec uid tc d) as [res d'].
    destruct (IH (msgs ++ [tool_message tc res]) d' Hp2) as (evs & d'' & -> & He & Hl).
    eexists _, d''. simpl. rewrite <- app_assoc. simpl.
    split; [done |]. split; [done | simpl; congruence].
Qed.

Lemma results_length uid tcs : ∀ d, length (results uid tcs d) = length tcs.
Proof.
  induction tcs as [|tc tcs IH]; intros d; [done |].
  simpl. destruct (exec uid tc d) as [res d']. simpl. by rewrite IH.
Qed.

(** *** One round *)

Lemma round_failure it uid msgs d e :
  failure (model it msgs) = Some e →
  round it uid msgs d = RoundFailed (content_events_of (model it msgs)) e d.
Proof.
  intros H. unfold run_round, content_events_of.
  destruct (consume_stream _ _) as [evs [full cur]]. by rewrite H.
Qed.

Lemma round_no_failure it uid msgs d :
  failure (model it msgs) = None →
  round it uid msgs d =
    match tool_calls_of (model it msgs) with
    | [] => RoundFinal (content_events_of (model it msgs))
                       (full_content_of (model it msgs))
    | tc :: tcs =>
        match dispatch uid (tc :: tcs)
                (msgs ++ [assistant_tool_message (full_content_of (model it msgs))
                            (tc :: tcs)]) d with
        | Dispatched evs' msgs' d' =>
            RoundTools (content_events_of (model it msgs) ++ evs') msgs' d'
        | DispatchRaised evs' e d' =>
            RoundFailed (content_events_of (model it msgs) ++ evs') e d'
        end
    end.
Proof.
  intros H. unfold run_round, content_events_of, full_content_of, tool_calls_of.
  destruct (consume_stream _ _) as [evs [full cur]]. rewrite H. simpl.
  by destruct (map snd cur).
Qed.

Lemma round_events it uid msgs d :
  match round it uid msgs d with
  | RoundFinal evs _ | RoundTools evs _ _ | RoundFailed evs _ _ =>
      forallb (λ e, is_content e || is_tool_call e) evs = true
  end.
Proof.
  assert (Hc : ∀ evs, forallb is_content evs = true →
                      forallb (λ e, is_content e || is_tool_call e) evs = true).
  { intros evs. rewrite !forallb_forall. intros H x Hx. by rewrite H. }
  assert (Ht : ∀ evs, forallb is_tool_call evs = true →
                      forallb (λ e, is_content e || is_tool_call e) evs = true).
  { intros evs. rewrite !forallb_forall. intros H x Hx.
    rewrite (H x Hx). apply orb_true_r. }
  pose proof (consume_stream_content (chunks (model it msgs)) (EmptyString, [])) as Hs.
  fold (content_events_of (model it msgs)) in Hs.
  destruct (failure (model it msgs)) as [e|] eqn:Hf.
  - rewrite (round_failure _ _ _ _ _ Hf). by apply Hc.
  - rewrite (round_no_failure _ _ _ _ Hf).
    destruct (tool_calls_of (model it msgs)) as [|tc tcs]; [by apply Hc |].
    pose proof (dispatch_events uid (tc :: tcs)
      (msgs ++ [assistant_tool_message (full_content_of (model it msgs)) (tc :: tcs)]) d) as Hd.
    destruct (dispatch uid (tc :: tcs) _ d); cbv beta iota;
      rewrite forallb_app, (Hc _ Hs), (Ht _ Hd); done.
Qed.

Lemma round_final_no_failure it uid msgs d evs full :
  round it uid msgs d = RoundFinal evs full → failure (model it msgs) = None.
Proof.
  destruct (failure (model it msgs)) as [e|] eqn:Hf; [| done].
  by rewrite (round_failure _ _ _ _ _ Hf).
Qed.

Lemma round_tools_no_failure it uid msgs d evs msgs' d' :
  round it uid msgs d = RoundTools evs msgs' d' → failure (model it msgs) = None.
Proof.
  destruct (failure (model it msgs)) as [e|] eqn:Hf; [| done].
  by rewrite (round_failure _ _ _ _ _ Hf).
Qed.

(** *** The loop *)

Lemma not_done_of_round evs :
  forallb (λ e, is_content e || is_tool_call e) evs = true →
  forallb (λ e, negb (is_done e)) evs = true.
Proof.
  rewrite !forallb_forall. intros H x Hx. specialize (H x Hx). by destruct x.
Qed.

Lemma not_error_of_round evs :
  forallb (λ e, is_content e || is_tool_call e) evs = true →
  forallb (λ e, negb (is_error e)) evs = true.
Proof.
  rewrite !forallb_forall. intros H x Hx. specialize (H x Hx). by destruct x.
Qed.

Lemma loop_events fuel : ∀ it now uid k msgs w,
  forallb (λ e, negb (is_done e)) (events (loop fuel it now uid k msgs w)) = true.
Proof.
  induction fuel as [|fuel IH]; intros it now uid k msgs w; [done |].
  simpl. pose proof (round_events it uid msgs (db w)) as Hr.
  destruct (round it uid msgs (db w)) as [evs full | evs msgs' d | evs e d]; simpl.
  - by apply not_done_of_round.
  - by rewrite forallb_app, (not_done_of_round _ Hr), IH.
  - by rewrite forallb_app, (not_done_of_round _ Hr).
Qed.

Lemma loop_requests fuel : ∀ it now uid k msgs w,
  (length (requests (loop fuel it now uid k msgs w)) ≤ fuel)%nat.
Proof.
  induction fuel as [|fuel IH]; intros it now uid k msgs w; [done |].
  simpl. destruct (round it uid msgs (db w)) as [evs full | evs msgs' d | evs e d];
    simpl; [lia | | lia].
  specialize (IH (S it) now uid k msgs' (mkWorld (sessions w) d (client w))). lia.
Qed.

(** The loop touches the session store at most once, to store the final
    reply. *)
Lemma loop_sessions fuel : ∀ it now uid k msgs w,
  let r := loop fuel it now uid k msgs w in
  sessions (world r) = sessions w
  ∨ ∃ c, sessions (world r)
         = alter (add_message now "assistant" (Some c) None) k (sessions w).
Proof.
  induction fuel as [|fuel IH]; intros it now uid k msgs w; [by left |].
  simpl. destruct (round it uid msgs (db w)) as [evs full | evs msgs' d | evs e d];
    simpl; [right; by eexists | | by left].
  apply (IH (S it) now uid k msgs' (mkWorld (sessions w) d (client w))).
Qed.

Lemma loop_client fuel : ∀ it now uid k msgs w,
  client (world (loop fuel it now uid k msgs w)) = client w.
Proof.
  induction fuel as [|fuel IH]; intros it now uid k msgs w; [done |].
  simpl. destruct (round it uid msgs (db w)) as [evs full | evs msgs' d | evs e d];
    simpl; [done | | done].
  by rewrite IH.
Qed.

(** A round that asks for tools whose arguments parse hands the extended
    message list to the next round and leaves the session store alone. *)
Lemma round_tools it uid msgs d :
  failure (model it msgs) = None →
  tool_calls_of (model it msgs) ≠ [] →
  forallb (parses json_loads) (tool_calls_of (model it msgs)) = true →
  ∃ evs d',
    round it uid msgs d
    = RoundTools (content_events_of (model it msgs) ++ evs)
        (msgs ++ assistant_tool_message (full_content_of (model it msgs))
                   (tool_calls_of (model it msgs))
              :: zip_with tool_message (tool_calls_of (model it msgs))
                   (results uid (tool_calls_of (model it msgs)) d))
        d'
    ∧ forallb is_tool_call evs = true
    ∧ length evs = length (tool_calls_of (model it msgs)).
Proof.
  intros Hf Hne Hp. rewrite (round_no_failure _ _ _ _ Hf).
  destruct (tool_calls_of (model it msgs)) as [|tc tcs] eqn:Htcs; [done |].
  destruct (dispatch_parsed uid (tc :: tcs)
              (msgs ++ [assistant_tool_message (full_content_of (model it msgs)) (tc :: tcs)])
              d Hp) as (evs & d' & -> & He & Hl).
  exists evs, d'. rewrite <- app_assoc. done.
Qed.

Lemma loop_always_tools fuel : ∀ it now uid k msgs w,
  always_tools json_loads model →
  let r := loop fuel it now uid k msgs w in
  length (requests r) = fuel
  ∧ forallb (λ e, negb (is_error e)) (events r) = true
  ∧ sessions (world r) = sessions w.
Proof.
  induction fuel as [|fuel IH]; intros it now uid k msgs w Hm; [done |].
  destruct (Hm it msgs) as (Hf & Hne & Hp).
  destruct (round_tools it uid msgs (db w) Hf Hne Hp) as (evs & d' & Hr & He & _).
  pose proof (round_events it uid msgs (db w)) as Hev.
  simpl. rewrite Hr in *. simpl.
  destruct (IH (S it) now uid k
              (msgs ++ assistant_tool_message (full_content_of (model it msgs))
                         (tool_calls_of (model it msgs))
                    :: zip_with tool_message (tool_calls_of (model it msgs))
                         (results uid (tool_calls_of (model it msgs)) (db w)))
              (mkWorld (sessions w) d' (client w)) Hm) as (H1 & H2 & H3).
  split; [by rewrite H1 |]. split; [| done].
  rewrite forallb_app, H2, (not_error_of_round _ Hev). done.
Qed.

(** A failed call of the model is the last call of the loop: the events
    end with the error, and the session store is the one the loop started
    with. *)
Lemma loop_failure fuel : ∀ it now uid k msgs w i m e,
  let r := loop fuel it now uid k msgs w in
  requests r !! i = Some m →
  failure (model (it + i) m) = Some e →
  S i = length (requests r)
  ∧ (∃ pre, events r = pre ++ [EvError e])
  ∧ sessions (world r) = sessions w.
Proof.
  induction fuel as [|fuel IH]; intros it now uid k msgs w i m e; [done |].
  cbn [tool_loop].
  destruct (round it uid msgs (db w)) as [evs full | evs msgs' d | evs e' d] eqn:Hr;
    cbn [requests events world sessions].
  - destruct i as [|i]; [| done]. intros [= <-]. rewrite Nat.add_0_r. intros Hf.
    apply round_final_no_failure in Hr. congruence.
  - destruct i as [|i].
    + intros [= <-]. rewrite Nat.add_0_r. intros Hf.
      apply round_tools_no_failure in Hr. congruence.
    + cbn [lookup list_lookup]. intros Hl Hf.
      replace (it + S i)%nat with (S it + i)%nat in Hf by lia.
      destruct (IH (S it) now uid k msgs' (mkWorld (sessions w) d (client w)) i m e
                  Hl Hf) as (Hn & [pre Hpre] & Hs).
      split; [cbn [length]; by rewrite Hn |]. split; [| done].
      exists (evs ++ pre). by rewrite Hpre, app_assoc.
  - destruct i as [|i]; [| done]. intros [= <-]. rewrite Nat.add_0_r. intros Hf.
    rewrite (round_failure _ _ _ _ _ Hf) in Hr. injection Hr as <- <- <-.
    split; [done |]. split; [by eexists | done].
Qed.

(** *** The whole stream *)

Lemma get_openai_client_cases cached :
  get_openai_client OPENAI_API_KEY cached = Ready
  ∨ get_openai_client OPENAI_API_KEY cached = ValueError "OPENAI_API_KEY is not set"
  ∨ get_openai_client OPENAI_API_KEY cached
    = AttributeError (no_attribute "OPENAI_API_KEY").
Proof.
  unfold get_openai_client. destruct cached; [by left |].
  destruct OPENAI_API_KEY as [|v]; [by right; right |].
  destruct (truthy_opt_str v); [by left | by right; left].
Qed.

Lemma chat_config_error t message uid sid w e :
  get_openai_client OPENAI_API_KEY (client w) = ValueError e →
  chat t message uid sid w
  = mkRun [EvError ("AI features not available: " +:+ e); EvDone] w [].
Proof. intros H. unfold process_chat_stream. by rewrite H. Qed.

Lemma chat_attribute_error t message uid sid w e :
  get_openai_client OPENAI_API_KEY (client w) = AttributeError e →
  chat t message uid sid w = mkRun [] w [].
Proof. intros H. unfold process_chat_stream. by rewrite H. Qed.

Lemma chat_ok t message uid sid w :
  get_openai_client OPENAI_API_KEY (client w) = Ready →
  chat t message uid sid w
  = let sw := turn t message uid sid w in
    let r := loop max_iterations 0 (t_reply t) uid (session_id sw.1)
               (system_message SYSTEM_PROMPT :: messages sw.1) sw.2 in
    mkRun (EvContent EmptyString (Some (session_id sw.1)) :: events r ++ [EvDone])
          (world r) (requests r).
Proof.
  intros H. unfold process_chat_stream. rewrite H.
  by destruct (turn t message uid sid w) as [session w1].
Qed.

Lemma count_done_app evs evs' :
  count_done (evs ++ evs') = (count_done evs + count_done evs')%nat.
Proof. unfold count_done. by rewrite filter_app, length_app. Qed.

Lemma count_done_none evs :
  forallb (λ e, negb (is_done e)) evs = true → count_done evs = O.
Proof.
  unfold count_done. induction evs as [|e evs IH]; [done |].
  simpl. intros H. apply andb_true_iff in H as [He H].
  rewrite filter_cons. destruct (decide (is_done e = true)) as [Hd|Hd].
  - rewrite Hd in He. done.
  - by apply IH.
Qed.

(** Unless [get_openai_client] raises the [AttributeError], the stream
    holds exactly one [done] event, and it is the last event. *)
Lemma chat_done_once t message uid sid (w : World DB) :
  (∀ e, get_openai_client OPENAI_API_KEY (client w) ≠ AttributeError e) →
  let evs := events (chat t message uid sid w) in
  count_done evs = 1%nat ∧ last evs = Some EvDone.
Proof.
  intros Hne. destruct (get_openai_client_cases (client w)) as [H|[H|H]].
  - rewrite (chat_ok _ _ _ _ _ H). cbv zeta. cbn [events].
    set (r := loop _ _ _ _ _ _ _).
    set (e0 := EvContent _ _).
    split.
    + change (e0 :: events r ++ [EvDone]) with ([e0] ++ events r ++ [EvDone]).
      rewrite !count_done_app, (count_done_none (events r)); [done |].
      apply loop_events.
    + rewrite app_comm_cons. apply last_snoc.
  - rewrite (chat_config_error _ _ _ _ _ _ H). done.
  - by apply Hne in H.
Qed.

Lemma chat_requests t message uid sid (w : World DB) :
  (length (requests (chat t message uid sid w)) ≤ max_iterations)%nat.
Proof.
  destruct (get_openai_client_cases (client w)) as [H|[H|H]].
  - rewrite (chat_ok _ _ _ _ _ H). cbv zeta. cbn [requests].
    apply (loop_requests max_iterations).
  - rewrite (chat_config_error _ _ _ _ _ _ H). simpl. lia.
  - rewrite (chat_attribute_error _ _ _ _ _ _ H). simpl. lia.
Qed.

(** C7: a turn calls the model at most five times, and a turn that has its
    client ends its stream with [done]; against a model that asks for tools
    in every round the loop makes exactly five calls and stops there, emits
    no [error] event, leaves the session store as it was after the user's
    message was stored, and the stream still ends with [done]. *)
Theorem C7_round_limit t message uid sid (w : World DB) :
  let r := chat t message uid sid w in
  (length (requests r) ≤ 5)%nat
  ∧ (get_openai_client OPENAI_API_KEY (client w) = Ready →
     last (events r) = Some EvDone)
  ∧ (always_tools json_loads model →
     get_openai_client OPENAI_API_KEY (client w) = Ready →
     length (requests r) = 5%nat
     ∧ forallb (λ e, negb (is_error e)) (events r) = true
     ∧ sessions (world r) = sessions (turn t message uid sid w).2
     ∧ count_done (events r) = 1%nat
     ∧ last (events r) = Some EvDone).
Proof.
  assert (Hlast : get_openai_client OPENAI_API_KEY (client w) = Ready →
                  count_done (events (chat t message uid sid w)) = 1%nat
                  ∧ last (events (chat t message uid sid w)) = Some EvDone).
  { intros H. apply chat_done_once. intros e He. congruence. }
  split; [| split].
  - apply chat_requests.
  - intros H. by apply Hlast.
  - intros Hm H. destruct (Hlast H) as [Hc Hl].
    split; [| split; [| split; [| done]]].
    + rewrite (chat_ok _ _ _ _ _ H). cbv zeta. cbn [requests].
      by destruct (loop_always_tools max_iterations 0 (t_reply t) uid
                (session_id (turn t message uid sid w).1)
                (system_message SYSTEM_PROMPT :: messages (turn t message uid sid w).1)
                (turn t message uid sid w).2 Hm) as (H1 & _ & _).
    + rewrite (chat_ok _ _ _ _ _ H). cbv zeta. cbn [events].
      destruct (loop_always_tools max_iterations 0 (t_reply t) uid
                (session_id (turn t message uid sid w).1)
                (system_message SYSTEM_PROMPT :: messages (turn t message uid sid w).1)
                (turn t message uid sid w).2 Hm) as (_ & H2 & _).
      cbn [forallb is_error negb andb]. rewrite forallb_app, H2. done.
    + rewrite (chat_ok _ _ _ _ _ H). cbv zeta. cbn [world].
      by destruct (loop_always_tools max_iterations 0 (t_reply t) uid
                (session_id (turn t message uid sid w).1)
                (system_message SYSTEM_PROMPT :: messages (turn t message uid sid w).1)
                (turn t message uid sid w).2 Hm) as (_ & _ & H3).
Qed.

(** C8: when a call of the model (or the consumption of its stream) raises,
    that call is the turn's last, the stream ends with the [error] event
    immediately followed by [done], and the session store is exactly the
    one the turn had after storing the user's message: the failed round
    adds nothing to the stored history. *)
Theorem C8_gateway_error t message uid sid (w : World DB) i m e :
  requests (chat t message uid sid w) !! i = Some m →
  failure (model i m) = Some e →
  S i = length (requests (chat t message uid sid w))
  ∧ (∃ pre, events (chat t message uid sid w) = pre ++ [EvError e; EvDone])
  ∧ sessions (world (chat t message uid sid w))
    = sessions (turn t message uid sid w).2.
Proof.
  destruct (get_openai_client_cases (client w)) as [H|[H|H]];
    [| by rewrite (chat_config_error _ _ _ _ _ _ H)
     | by rewrite (chat_attribute_error _ _ _ _ _ _ H)].
  - rewrite (chat_ok _ _ _ _ _ H). cbv zeta. cbn [requests events world].
    intros Hl Hf.
    destruct (loop_failure max_iterations 0 (t_reply t) uid
                (session_id (turn t message uid sid w).1)
                (system_message SYSTEM_PROMPT :: messages (turn t message uid sid w).1)
                (turn t message uid sid w).2 i m e Hl Hf) as (Hn & [pre Hpre] & Hs).
    split; [done |]. split; [| done]. rewrite Hpre.
    exists (EvContent EmptyString (Some (session_id (turn t message uid sid w).1)) :: pre).
    by rewrite <- app_assoc.
Qed.

(** *** A round that dispatches tools *)

Local Abbreviation after := (db_after json_loads DB handler kwargs_error).

Lemma dispatch_all_parsed uid tcs : ∀ msgs d,
  forallb (parses json_loads) tcs = true →
  dispatch uid tcs msgs d
  = Dispatched (tool_call_events json_loads tcs)
      (msgs ++ zip_with tool_message tcs (results uid tcs d))
      (after uid tcs d).
Proof.
  induction tcs as [|tc tcs IH]; intros msgs d Hp.
  - cbn. by rewrite app_nil_r.
  - cbn [forallb] in Hp. apply andb_true_iff in Hp as [Hp1 Hp2].
    unfold parses in Hp1. unfold tool_call_events.
    cbn [dispatch_tools tool_results db_after omap list_omap].
    destruct (json_loads (tc_arguments tc)) as [args|e]; [| done].
    destruct (exec uid tc d) as [res d'].
    rewrite (IH _ d' Hp2). cbn [prepend_events snd zip_with].
    by rewrite <- app_assoc.
Qed.

Lemma tool_call_events_kind tcs :
  forallb is_tool_call (tool_call_events json_loads tcs) = true.
Proof.
  unfold tool_call_events. induction tcs as [|tc tcs IH]; [done |].
  cbn [omap list_omap]. by destruct (json_loads (tc_arguments tc)).
Qed.


(** The result of the [i]-th call is what executing it gives on the task
    store that the calls before it have left. *)
Lemma results_lookup uid tcs : ∀ d i tc,
  tcs !! i = Some tc →
  results uid tcs d !! i = Some (exec uid tc (after uid (take i tcs) d)).1.
Proof.
  induction tcs as [|tc0 tcs IH]; intros d i tc Hi; [done |].
  cbn [tool_results]. destruct (exec uid tc0 d) as [res d'] eqn:He.
  destruct i as [|i].
  - injection Hi as <-. cbn [take db_after]. by rewrite He.
  - cbn [lookup list_lookup] in Hi |- *. cbn [take db_after]. rewrite He.
    by apply IH.
Qed.

Lemma round_dispatches it uid msgs d :
  failure (model it msgs) = None →
  tool_calls_of (model it msgs) ≠ [] →
  forallb (parses json_loads) (tool_calls_of (model it msgs)) = true →
  round it uid msgs d
  = RoundTools
      (content_events_of (model it msgs)
         ++ tool_call_events json_loads (tool_calls_of (model it msgs)))
      (msgs ++ assistant_tool_message (full_content_of (model it msgs))
                 (tool_calls_of (model it msgs))
            :: zip_with tool_message (tool_calls_of (model it msgs))
                 (results uid (tool_calls_of (model it msgs)) d))
      (after uid (tool_calls_of (model it msgs)) d).
Proof.
  intros Hf Hne Hp. rewrite (round_no_failure _ _ _ _ Hf).
  destruct (tool_calls_of (model it msgs)) as [|tc tcs] eqn:Htcs; [done |].
  rewrite (dispatch_all_parsed uid (tc :: tcs) _ d Hp).
  by rewrite <- app_assoc.
Qed.

Lemma loop_requests_head fuel it now uid k msgs (w : World DB) :
  requests (loop (S fuel) it now uid k msgs w) !! O = Some msgs.
Proof.
  cbn [tool_loop]. by destruct (round it uid msgs (db w)).
Qed.

(** The entry of the extended list that belongs to the [i]-th call. *)
Lemma extended_lookup msgs a tcs res i tc r :
  tcs !! i = Some tc → res !! i = Some r →
  (msgs ++ a :: zip_with tool_message tcs res) !! (length msgs + 1 + i)%nat
  = Some (tool_message tc r).
Proof.
  intros Ht Hr. rewrite lookup_app_r by lia.
  replace (length msgs + 1 + i - length msgs)%nat with (S i) by lia.
  change ((a :: zip_with tool_message tcs res) !! S i)
    with (zip_with tool_message tcs res !! i).
  rewrite lookup_zip_with, Ht. cbn. by rewrite Hr.
Qed.

(** C2 (as amended): a round whose response arrives completely and holds
    at least one tool call, all with arguments that parse, ends with the
    per-turn list [messages] extended by the assistant message carrying the
    tool-call list and then by one [tool] message per call, in call order,
    each holding the result of its call; the loop goes on to the next round
    with that list, on the session store that this round started from. *)
Theorem C2_tool_round_extends_the_turn_list
    fuel it now uid k msgs (w : World DB) :
  let resp := model it msgs in
  let tcs := tool_calls_of resp in
  let res := results uid tcs (db w) in
  let msgs' := msgs ++ assistant_tool_message (full_content_of resp) tcs
                    :: zip_with tool_message tcs res in
  let next := loop fuel (S it) now uid k msgs'
                (mkWorld (sessions w) (after uid tcs (db w)) (client w)) in
  failure resp = None →
  tcs ≠ [] →
  forallb (parses json_loads) tcs = true →
  round it uid msgs (db w)
  = RoundTools (content_events_of resp ++ tool_call_events json_loads tcs)
      msgs' (after uid tcs (db w))
  ∧ length msgs' = (length msgs + 1 + length tcs)%nat
  ∧ msgs' !! length msgs = Some (assistant_tool_message (full_content_of resp) tcs)
  ∧ (∀ i tc, tcs !! i = Some tc →
       msgs' !! (length msgs + 1 + i)%nat
       = Some (tool_message tc
                 (exec uid tc (after uid (take i tcs) (db w))).1))
  ∧ loop (S fuel) it now uid k msgs w
    = mkRun (content_events_of resp ++ tool_call_events json_loads tcs
               ++ events next)
        (world next) (msgs :: requests next)
  ∧ (fuel ≠ O → requests (loop (S fuel) it now uid k msgs w) !! 1%nat = Some msgs').
Proof.
  intros resp tcs res msgs' next Hf Hne Hp.
  pose proof (round_dispatches it uid msgs (db w) Hf Hne Hp) as Hr.
  fold resp tcs res msgs' in Hr.
  assert (Hloop : loop (S fuel) it now uid k msgs w
                  = mkRun (content_events_of resp ++ tool_call_events json_loads tcs
                             ++ events next)
                      (world next) (msgs :: requests next)).
  { cbn [tool_loop]. rewrite Hr. by rewrite <- app_assoc. }
  split; [exact Hr |]. split; [| split; [| split; [| split; [exact Hloop |]]]].
  - unfold msgs'. rewrite length_app. cbn [length].
    rewrite length_zip_with. unfold res. rewrite results_length. lia.
  - unfold msgs'. rewrite lookup_app_r by lia. by rewrite Nat.sub_diag.
  - intros i tc Hi. unfold msgs'. apply extended_lookup; [done |].
    by apply results_lookup.
  - intros Hfuel. rewrite Hloop. cbn [requests]. unfold next.
    destruct fuel as [|fuel]; [done |].
    exact (loop_requests_head fuel (S it) now uid k msgs' _).
Qed.


(** C6 (the code at the failing input): when the arguments of a call to a
    registered tool are an object with a [user_id] key, the handler is not
    run: the call raises before it, the task store is unchanged and the
    result is the [Tool execution error] text. *)
Theorem C6_model_user_id_rejects_the_call uid tc h kwargs (d : DB) :
  TOOL_HANDLERS_get (tc_name tc) = Some h →
  json_loads (tc_arguments tc) = Ok (JObj kwargs) →
  has_kwarg "user_id" kwargs = true →
  exec uid tc d = (tool_error_text (kwargs_error h (JObj kwargs)), d).
Proof.
  intros Hh Ha Hk. unfold execute_tool, call_handler. by rewrite Hh, Ha, Hk.
Qed.

Lemma turn_fresh t message uid sid d c :
  turn t message uid sid (mkWorld ∅ d c)
  = (let s := add_message (t_user t) "user" (Some message) None
                (new_session (uuid4 t) (t_fetch t) uid) in
     (s, mkWorld (<[uuid4 t := s]>
                    (<[uuid4 t := new_session (uuid4 t) (t_fetch t) uid]>
                       (_cleanup_expired_sessions (t_fetch t) ∅))) d true)).
Proof.
  unfold open_turn. cbn [sessions db].
  destruct (get_or_create_cases (t_fetch t) (uuid4 t) uid sid ∅) as [H|H].
  - destruct H as (k & _ & _ & Hk & _). apply cleanup_lookup in Hk as [Hk _].
    by rewrite lookup_empty in Hk.
  - by rewrite H.
Qed.

(** C1 (the code at the failing input): after the first turn of a process
    the stored session's entry 0 is the user's message, with role [user];
    the system prompt is not in the stored list. *)
Theorem C1_entry_0_is_the_user_message t message uid sid (d : DB) c :
  get_openai_client OPENAI_API_KEY c = Ready →
  ∃ s, sessions (world (chat t message uid sid (mkWorld ∅ d c))) !! uuid4 t = Some s
       ∧ head (messages s) = Some (mkMessage "user" (Some message) None None).
Proof.
  intros H. rewrite (chat_ok t message uid sid (mkWorld ∅ d c) H), turn_fresh.
  cbv zeta. cbn [world fst snd].
  set (s := add_message (t_user t) "user" (Some message) None
              (new_session (uuid4 t) (t_fetch t) uid)).
  assert (Hh : head (messages s) = Some (mkMessage "user" (Some message) None None))
    by done.
  change (session_id s) with (uuid4 t).
  match goal with
  | |- ∃ _, sessions (world (loop ?f ?i ?n ?u ?k ?m ?w0)) !! _ = _ ∧ _ =>
      destruct (loop_sessions f i n u k m w0) as [Hs | [c' Hs]]
  end; rewrite Hs; cbn [sessions].
  - exists s. by rewrite lookup_insert_eq.
  - eexists. rewrite lookup_alter_eq, lookup_insert_eq. cbn [fmap option_fmap option_map].
    split; [done |]. by apply add_message_head.
Qed.

End LoopFacts.

(** ** What the session store holds *)

Section StoreFacts.

Variable json_loads : string → result JValue.
Variable DB : Type.
Variable handler : ToolName → string → list (string * JValue) → DB → result string * DB.
Variable kwargs_error : ToolName → JValue → string.
Variable OPENAI_API_KEY : Setting.
Variable SYSTEM_PROMPT : string.

Local Abbreviation chat :=
  (process_chat_stream json_loads DB handler kwargs_error OPENAI_API_KEY SYSTEM_PROMPT).
Local Abbreviation reach :=
  (reachable json_loads DB handler kwargs_error OPENAI_API_KEY SYSTEM_PROMPT).

Lemma plain_insert k s (st : gmap string ChatSession) :
  forallb plain_entry (messages s) = true → plain_store st → plain_store (<[k := s]> st).
Proof.
  intros Hs Hst k' s' Hk. destruct (decide (k = k')) as [<- | Hne].
  - rewrite lookup_insert_eq in Hk. by injection Hk as <-.
  - rewrite lookup_insert_ne in Hk by done. eauto.
Qed.

Lemma plain_alter now c k (st : gmap string ChatSession) :
  plain_store st →
  plain_store (alter (add_message now "assistant" c None) k st).
Proof.
  intros Hst k' s' Hk. destruct (decide (k = k')) as [<- | Hne].
  - rewrite lookup_alter_eq in Hk.
    destruct (st !! k) as [s|] eqn:Hs; [| done]. simpl in Hk. injection Hk as <-.
    apply add_message_plain; [by right | eauto].
  - rewrite lookup_alter_ne in Hk by done. eauto.
Qed.

Lemma plain_get_or_create now uuid uid sid (st : gmap string ChatSession) :
  plain_store st →
  forallb plain_entry (messages (get_or_create_session now uuid uid sid st).1) = true
  ∧ plain_store (get_or_create_session now uuid uid sid st).2.
Proof.
  intros Hst. pose proof (cleanup_plain now st Hst) as Hc.
  destruct (get_or_create_cases now uuid uid sid st) as [H|H].
  - destruct H as (k & _ & _ & Hk & _ & _ & ->). split; [by eapply Hc | done].
  - rewrite H. split; [done |]. by apply plain_insert.
Qed.

Lemma plain_turn t message uid sid (w : World DB) :
  plain_store (sessions w) →
  plain_store (sessions (open_turn DB t message uid sid w).2).
Proof.
  intros Hst. unfold open_turn.
  destruct (plain_get_or_create (t_fetch t) (uuid4 t) uid sid (sessions w) Hst)
    as [Hs Hst'].
  destruct (get_or_create_session _ _ _ _ _) as [session store].
  cbn [snd sessions fst] in *. apply plain_insert; [| done].
  apply add_message_plain; [by left | done].
Qed.

Lemma plain_chat model t message uid sid (w : World DB) :
  plain_store (sessions w) →
  plain_store (sessions (world (chat model t message uid sid w))).
Proof.
  intros Hst.
  destruct (get_openai_client_cases OPENAI_API_KEY (client w)) as [H|[H|H]];
    [| by rewrite (chat_config_error _ _ _ _ _ _ _ _ _ _ _ _ _ H)
     | by rewrite (chat_attribute_error _ _ _ _ _ _ _ _ _ _ _ _ _ H)].
  - rewrite (chat_ok _ _ _ _ _ _ _ _ _ _ _ _ H). cbv zeta. cbn [world].
    pose proof (plain_turn t message uid sid w Hst) as Ht.
    match goal with
    | |- plain_store (sessions (world (tool_loop _ _ _ _ _ ?f ?i ?n ?u ?k ?m ?w0))) =>
        destruct (loop_sessions json_loads DB handler kwargs_error model f i n u k m w0)
          as [Hs | [c Hs]]
    end; rewrite Hs; [done | by apply plain_alter].
Qed.

(** The identification of a session object with its entry in the store:
    the session that [get_or_create_session] returns is the entry under its
    own id, and every entry sits under its own id. *)
Lemma wf_get_or_create now uuid uid sid (st : gmap string ChatSession) :
  store_wf st →
  store_wf (get_or_create_session now uuid uid sid st).2
  ∧ (get_or_create_session now uuid uid sid st).2
      !! session_id (get_or_create_session now uuid uid sid st).1
    = Some (get_or_create_session now uuid uid sid st).1.
Proof.
  intros Hwf.
  assert (Hc : store_wf (_cleanup_expired_sessions now st)).
  { intros k s Hk. apply cleanup_lookup in Hk as [Hk _]. eauto. }
  destruct (get_or_create_cases now uuid uid sid st) as [H|H].
  - destruct H as (k & _ & _ & Hk & _ & _ & ->). split; [done |].
    by rewrite (Hc _ _ Hk).
  - rewrite H. cbn [fst snd]. split; [| by rewrite lookup_insert_eq].
    intros k s Hk. destruct (decide (uuid = k)) as [<- | Hne].
    + rewrite lookup_insert_eq in Hk. by injection Hk as <-.
    + rewrite lookup_insert_ne in Hk by done. eauto.
Qed.

Lemma wf_insert s (st : gmap string ChatSession) :
  store_wf st → store_wf (<[session_id s := s]> st).
Proof.
  intros Hwf k s' Hk. destruct (decide (session_id s = k)) as [<- | Hne].
  - rewrite lookup_insert_eq in Hk. by injection Hk as <-.
  - rewrite lookup_insert_ne in Hk by done. eauto.
Qed.

Lemma wf_alter now r c tcs k (st : gmap string ChatSession) :
  store_wf st → store_wf (alter (add_message now r c tcs) k st).
Proof.
  intros Hwf k' s' Hk. destruct (decide (k = k')) as [<- | Hne].
  - rewrite lookup_alter_eq in Hk.
    destruct (st !! k) as [s|] eqn:Hs; [| done]. simpl in Hk. injection Hk as <-.
    simpl. eauto.
  - rewrite lookup_alter_ne in Hk by done. eauto.
Qed.

Lemma wf_chat model t message uid sid (w : World DB) :
  store_wf (sessions w) →
  store_wf (sessions (world (chat model t message uid sid w))).
Proof.
  intros Hwf.
  destruct (get_openai_client_cases OPENAI_API_KEY (client w)) as [H|[H|H]];
    [| by rewrite (chat_config_error _ _ _ _ _ _ _ _ _ _ _ _ _ H)
     | by rewrite (chat_attribute_error _ _ _ _ _ _ _ _ _ _ _ _ _ H)].
  - rewrite (chat_ok _ _ _ _ _ _ _ _ _ _ _ _ H). cbv zeta. cbn [world].
    assert (Ht : store_wf (sessions (open_turn DB t message uid sid w).2)).
    { unfold open_turn.
      destruct (wf_get_or_create (t_fetch t) (uuid4 t) uid sid (sessions w) Hwf)
        as [Hst _].
      destruct (get_or_create_session _ _ _ _ _) as [session store].
      cbn [snd sessions] in *. by apply wf_insert. }
    match goal with
    | |- store_wf (sessions (world (tool_loop _ _ _ _ _ ?f ?i ?n ?u ?k ?m ?w0))) =>
        destruct (loop_sessions json_loads DB handler kwargs_error model f i n u k m w0)
          as [Hs | [c Hs]]
    end; rewrite Hs; [done | by apply wf_alter].
Qed.

Lemma reachable_wf (w : World DB) : reach w → store_wf (sessions w).
Proof.
  induction 1 as [d | w model t message uid sid _ IH | w k _ IH | w d _ IH].
  - intros k s Hk. cbn [sessions] in Hk. by rewrite lookup_empty in Hk.
  - by apply wf_chat.
  - cbn [sessions]. unfold delete_session.
    destruct (sessions w !! k); [| done].
    intros k' s' Hk. cbn [snd] in Hk. apply lookup_delete_Some in Hk as [_ Hk]. eauto.
  - done.
Qed.

(** C10: in every state the process can reach, every entry of every
    stored session has role [user] or [assistant] and carries neither a
    tool-call list nor a tool-call id: no system prompt, no tool message
    and no assistant tool-call message is ever stored. *)
Theorem C10_stored_entries_are_user_or_assistant (w : World DB) :
  reach w → plain_store (sessions w).
Proof.
  induction 1 as [d | w model t message uid sid _ IH | w k _ IH | w d _ IH].
  - intros k s Hk. cbn [sessions] in Hk. by rewrite lookup_empty in Hk.
  - by apply plain_chat.
  - cbn [sessions]. unfold delete_session.
    destruct (sessions w !! k); [| done].
    intros k' s' Hk. cbn [snd] in Hk. apply lookup_delete_Some in Hk as [_ Hk]. eauto.
  - done.
Qed.

End StoreFacts.

(** ** The stream under the settings of core/config.py *)

Section ConfigFacts.

Variable json_loads : string → result JValue.
Variable DB : Type.
Variable handler : ToolName → string → list (string * JValue) → DB → result string * DB.
Variable kwargs_error : ToolName → JValue → string.
Variable SYSTEM_PROMPT : string.

(** [class Settings] declares neither of the two fields that agent.py
    reads, whatever the environment holds. *)
Lemma getattr_agent_fields env :
  getattr env "OPENAI_API_KEY" = Undeclared ∧ getattr env "AI_MODEL" = Undeclared.
Proof. split; reflexivity. Qed.

(** Without the field no client is ever created. *)
Lemma undeclared_no_client (w : World DB) :
  reachable json_loads DB handler kwargs_error Undeclared SYSTEM_PROMPT w →
  client w = false.
Proof.
  induction 1 as [d | w model t message uid sid _ IH | w k _ IH | w d _ IH];
    [done | | done | done].
  unfold process_chat_stream, get_openai_client. by rewrite IH.
Qed.

(** C3 (the code at the failing input): with the [Settings] class of
    core/config.py, in every state the process can reach and whatever the
    environment holds, [get_openai_client] raises the [AttributeError],
    which [process_chat_stream] does not catch: the stream has no event, so
    no [done] event, and nothing is changed.  With a [Settings] class that
    declares the field, every stream holds exactly one [done] event and it
    is the last event. *)
Theorem C3_undeclared_key_stream_has_no_done :
  (∀ env model t message uid sid (w : World DB),
     reachable json_loads DB handler kwargs_error (getattr env "OPENAI_API_KEY")
       SYSTEM_PROMPT w →
     let r := process_chat_stream json_loads DB handler kwargs_error
                (getattr env "OPENAI_API_KEY") SYSTEM_PROMPT model t message uid
                sid w in
     get_openai_client (getattr env "OPENAI_API_KEY") (client w)
     = AttributeError (no_attribute "OPENAI_API_KEY")
     ∧ events r = []
     ∧ count_done (events r) = 0%nat
     ∧ last (events r) = None
     ∧ world r = w
     ∧ requests r = [])
  ∧ (∀ v model t message uid sid (w : World DB),
       let evs := events (process_chat_stream json_loads DB handler kwargs_error
                            (Declared v) SYSTEM_PROMPT model t message uid sid w) in
       count_done evs = 1%nat ∧ last evs = Some EvDone).
Proof.
  split.
  - intros env model t message uid sid w Hw.
    destruct (getattr_agent_fields env) as [Hkey _]. rewrite Hkey in *.
    apply undeclared_no_client in Hw.
    unfold process_chat_stream, get_openai_client. by rewrite Hw.
  - intros v model t message uid sid w. apply chat_done_once.
    intros e. unfold get_openai_client.
    destruct (client w); [done |]. by destruct (truthy_opt_str v).
Qed.

End ConfigFacts.

(** C9 (the code at the failing input): the model the endpoint validates
    against constrains only the type of [message], so a body with any
    string, the empty one and one of more than 1000 characters included,
    reaches [process_chat_stream]; the [ChatRequest] of ai/models.py
    rejects the empty message. *)
Theorem C9_endpoint_accepts_any_string
    json_loads DB handler kwargs_error key prompt model t m uid (w : World DB) :
  Routes.chat_endpoint json_loads DB handler kwargs_error key prompt model t
    (Routes.mkBody (Some (JStr m)) None) uid w
  = Routes.Streaming
      (process_chat_stream json_loads DB handler kwargs_error key prompt model
         t m uid None w)
  ∧ Routes.models_ChatRequest_validate (Routes.mkBody (Some (JStr EmptyString)) None)
    = None.
Proof. done. Qed.

(** ** The properties on the concrete environment *)

Lemma C5_witness :
  Demo.store1 !! EmptyString = None
  ∧ get_or_create_session 1000 "new" "alice" (Some "s1") Demo.store1
    = (Demo.alice_session, _cleanup_expired_sessions 1000 Demo.store1)
  ∧ user_id (get_or_create_session 1000 "new" "mallory" (Some "s1") Demo.store1).1
    = "mallory".
Proof.
  assert (H0 : Demo.store1 !! EmptyString = None) by reflexivity.
  split; [exact H0 |]. split.
  - exact (proj1 (C5_get_or_create_session 1000 "new" "alice" (Some "s1")
                    Demo.store1 H0)
             "s1" Demo.alice_session eq_refl eq_refl eq_refl eq_refl).
  - exact (proj2 (proj2 (C5_get_or_create_session 1000 "new" "mallory" (Some "s1")
                           Demo.store1 H0))).
Defined.

Lemma C7_witness :
  always_tools Demo.json_loads Demo.model_loop
  ∧ length (requests (Demo.chat Demo.model_loop Demo.turn0 "list" "alice" None
                        Demo.world0)) = 5%nat
  ∧ forallb (λ e, negb (is_error e))
      (events (Demo.chat Demo.model_loop Demo.turn0 "list" "alice" None Demo.world0))
    = true.
Proof.
  assert (Hm : always_tools Demo.json_loads Demo.model_loop).
  { intros i msgs. split; [reflexivity |]. split; [discriminate | reflexivity]. }
  split; [exact Hm |].
  destruct (C7_round_limit Demo.json_loads Demo.DB Demo.handler Demo.kwargs_error
              (Declared (Some "sk-test")) Demo.SYSTEM_PROMPT Demo.model_loop Demo.turn0
              "list" "alice" None Demo.world0) as (_ & _ & H).
  destruct (H Hm eq_refl) as (H1 & H2 & _). split; [exact H1 | exact H2].
Defined.

Lemma C8_witness :
  1%nat = length (requests (Demo.chat Demo.model_broken Demo.turn0 "list" "alice"
                              None Demo.world0))
  ∧ ∃ pre, events (Demo.chat Demo.model_broken Demo.turn0 "list" "alice" None
                     Demo.world0)
           = pre ++ [EvError "Connection error."; EvDone].
Proof.
  destruct (C8_gateway_error Demo.json_loads Demo.DB Demo.handler
              Demo.kwargs_error (Declared (Some "sk-test")) Demo.SYSTEM_PROMPT
              Demo.model_broken Demo.turn0 "list" "alice" None Demo.world0 O
              [system_message Demo.SYSTEM_PROMPT;
               mkMessage "user" (Some "list") None None]
              "Connection error." eq_refl eq_refl) as (Hn & He & _).
  split; [exact Hn | exact He].
Defined.

Lemma C2_witness :
  run_round Demo.json_loads Demo.DB Demo.handler Demo.kwargs_error Demo.model_milk
    0 "alice" [] []
  = RoundTools
      [EvToolCall "call_1" "create_task" (JObj [("title", JStr "buy milk")])]
      [assistant_tool_message EmptyString
         [mkToolCall "call_1" "create_task" Demo.args_milk];
       tool_message (mkToolCall "call_1" "create_task" Demo.args_milk)
         "Task created: buy milk"]
      [("alice", "buy milk")]
  ∧ requests (tool_loop Demo.json_loads Demo.DB Demo.handler Demo.kwargs_error
                Demo.model_milk 2 0 5000 "alice" "3f0c" [] Demo.world0) !! 1%nat
    = Some [assistant_tool_message EmptyString
              [mkToolCall "call_1" "create_task" Demo.args_milk];
            tool_message (mkToolCall "call_1" "create_task" Demo.args_milk)
              "Task created: buy milk"].
Proof.
  destruct (C2_tool_round_extends_the_turn_list Demo.json_loads Demo.DB Demo.handler
              Demo.kwargs_error Demo.model_milk 1 0 5000 "alice" "3f0c" []
              Demo.world0)
    as (Hr & _ & _ & _ & _ & Hn); [reflexivity | discriminate | reflexivity |].
  split; [exact Hr |]. apply Hn. discriminate.
Defined.


Lemma C6_witness :
  has_kwarg "user_id" [("title", JStr "x"); ("user_id", JStr "mallory")] = true
  ∧ execute_tool Demo.json_loads Demo.DB Demo.handler Demo.kwargs_error "alice"
      Demo.spoof_call []
    = (tool_error_text "got multiple values for keyword argument 'user_id'", []).
Proof.
  split; [reflexivity |].
  exact (C6_model_user_id_rejects_the_call Demo.json_loads Demo.DB Demo.handler
           Demo.kwargs_error "alice" Demo.spoof_call create_task
           [("title", JStr "x"); ("user_id", JStr "mallory")] []
           eq_refl eq_refl eq_refl).
Defined.

Lemma C1_witness :
  ∃ s, sessions (world (Demo.chat Demo.model_hello Demo.turn0 "hi" "alice" None
                          Demo.world0)) !! "3f0c" = Some s
       ∧ head (messages s) = Some (mkMessage "user" (Some "hi") None None).
Proof.
  exact (C1_entry_0_is_the_user_message Demo.json_loads Demo.DB Demo.handler
           Demo.kwargs_error (Declared (Some "sk-test")) Demo.SYSTEM_PROMPT Demo.model_hello
           Demo.turn0 "hi" "alice" None [] false eq_refl).
Defined.

Lemma C10_witness :
  plain_store
    (sessions (world (Demo.chat Demo.model_milk Demo.turn0 "add buy milk" "alice"
                        None Demo.world0))).
Proof.
  apply (C10_stored_entries_are_user_or_assistant Demo.json_loads Demo.DB
           Demo.handler Demo.kwargs_error (Declared (Some "sk-test")) Demo.SYSTEM_PROMPT).
  apply reach_chat, reach_start.
Defined.

Lemma C3_witness :
  events (process_chat_stream Demo.json_loads Demo.DB Demo.handler Demo.kwargs_error
            (getattr (λ name, if String.eqb name "OPENAI_API_KEY"
                              then Some "sk-test" else None)
               "OPENAI_API_KEY")
            Demo.SYSTEM_PROMPT Demo.model_hello Demo.turn0 "hi" "alice" None
            Demo.world0)
  = [].
Proof.
  destruct (C3_undeclared_key_stream_has_no_done Demo.json_loads Demo.DB
              Demo.handler Demo.kwargs_error Demo.SYSTEM_PROMPT) as [H _].
  destruct (H (λ name, if String.eqb name "OPENAI_API_KEY" then Some "sk-test" else None)
              Demo.model_hello Demo.turn0 "hi" "alice" None Demo.world0)
    as (_ & He & _); [apply reach_start |].
  exact He.
Defined.

(** C2, as stated, fails.  In the first turn round 0 holds a tool call, yet
    the session stored at the end has no [tool] entry and no entry with a
    tool-call list; it holds the user's message and the final answer.  In
    the second, round 0 holds two tool calls and the second arrives without
    arguments text: the first call runs, the round then fails, and no next
    round is started.  In the third, the stream breaks after a tool call
    has arrived: nothing is dispatched and no next round is started. *)
Lemma C2_counterexample :
  (tool_calls_of (Demo.model_milk 0 []) ≠ []
   ∧ (messages <$> sessions (world (Demo.chat Demo.model_milk Demo.turn0
                                      "add buy milk" "alice" None Demo.world0))
                   !! "3f0c")
     = Some [mkMessage "user" (Some "add buy milk") None None;
             mkMessage "assistant" (Some "Added buy milk.") None None]
   ∧ ¬ ∃ s m,
         sessions (world (Demo.chat Demo.model_milk Demo.turn0 "add buy milk" "alice"
                            None Demo.world0)) !! "3f0c" = Some s
         ∧ m ∈ messages s
         ∧ (role m = "tool" ∨ tool_calls m ≠ None))
  ∧ (tool_calls_of (Demo.model_milk_then_empty 0 [])
     = [mkToolCall "call_1" "create_task" Demo.args_milk;
        mkToolCall "call_2" "list_tasks" EmptyString]
     ∧ run_round Demo.json_loads Demo.DB Demo.handler Demo.kwargs_error
         Demo.model_milk_then_empty 0 "alice" [] []
       = RoundFailed
           [EvToolCall "call_1" "create_task" (JObj [("title", JStr "buy milk")])]
           "Expecting value: line 1 column 1 (char 0)"
           [("alice", "buy milk")]
     ∧ length (requests (Demo.chat Demo.model_milk_then_empty Demo.turn0
                           "add buy milk" "alice" None Demo.world0)) = 1%nat)
  ∧ (tool_calls_of (Demo.model_cut 0 [])
     = [mkToolCall "call_1" "create_task" Demo.args_milk]
     ∧ run_round Demo.json_loads Demo.DB Demo.handler Demo.kwargs_error
         Demo.model_cut 0 "alice" [] []
       = RoundFailed [] "Connection error." []
     ∧ length (requests (Demo.chat Demo.model_cut Demo.turn0
                           "add buy milk" "alice" None Demo.world0)) = 1%nat).
Proof.
  split; [| split; [by vm_compute | by vm_compute]].
  split; [discriminate |]. split; [reflexivity |].
  intros (s & m & Hs & Hm & Hr). vm_compute in Hs. injection Hs as <-.
  cbn [messages] in Hm.
  apply elem_of_cons in Hm as [-> | Hm]; [| apply elem_of_cons in Hm as [-> | Hm]].
  - destruct Hr as [Hr | Hr]; [discriminate Hr | by apply Hr].
  - destruct Hr as [Hr | Hr]; [discriminate Hr | by apply Hr].
  - by apply elem_of_nil in Hm.
Qed.


(** ** Runs of the embedding *)

Example ex_add_message_at_cap :
  map content (messages (add_message 7 "user" (Some "new") None Demo.full_session))
  = Some "A" :: map (λ n, Some (Demo.letter n)) (seq 2 19) ++ [Some "new"].
Proof. reflexivity. Qed.

Example ex_fragments_by_index :
  consume_stream (EmptyString, []) Demo.interleaved
  = ([EvContent "On it" None],
     ("On it", [(1, mkToolCall "b" "list_tasks" "{}");
                (0, mkToolCall "a" "create_task" "{}")])).
Proof. reflexivity. Qed.

Example ex_turn_with_one_tool :
  events (Demo.chat Demo.model_milk Demo.turn0 "add buy milk" "alice" None Demo.world0)
  = [EvContent EmptyString (Some "3f0c");
     EvToolCall "call_1" "create_task" (JObj [("title", JStr "buy milk")]);
     EvContent "Added " None; EvContent "buy milk." None; EvDone].
Proof. reflexivity. Qed.

Example ex_missing_key :
  Demo.chat Demo.model_hello Demo.turn0 "hi" "alice" None Demo.world0
  ≠ process_chat_stream Demo.json_loads Demo.DB Demo.handler Demo.kwargs_error
      (Declared None) Demo.SYSTEM_PROMPT Demo.model_hello Demo.turn0 "hi" "alice" None Demo.world0
  ∧ events (process_chat_stream Demo.json_loads Demo.DB Demo.handler Demo.kwargs_error
              (Declared None) Demo.SYSTEM_PROMPT Demo.model_hello Demo.turn0 "hi" "alice" None
              Demo.world0)
    = [EvError "AI features not available: OPENAI_API_KEY is not set"; EvDone].
Proof. split; [discriminate | reflexivity]. Qed.

Example ex_settings :
  getattr (λ _, None) "APP_NAME" = Declared (Some "Todo API")
  ∧ getattr (λ _, Some "sk-test") "OPENAI_API_KEY" = Undeclared
  ∧ get_openai_client (getattr (λ _, Some "sk-test") "OPENAI_API_KEY") false
    = AttributeError "'Settings' object has no attribute 'OPENAI_API_KEY'".
Proof. repeat split. Qed.

Example ex_no_ai_model :
  events (Demo.chat Demo.model_no_ai_model Demo.turn0 "hi" "alice" None Demo.world0)
  = [EvContent EmptyString (Some "3f0c");
     EvError "'Settings' object has no attribute 'AI_MODEL'"; EvDone].
Proof. reflexivity. Qed.

Example ex_foreign_session_id :
  (get_or_create_session 1000 "new" "mallory" (Some "s1") Demo.store1).1
  = new_session "new" 1000 "mallory".
Proof. reflexivity. Qed.

Example ex_expired_session_id :
  (get_or_create_session (hours 24 + 1) "new" "alice" (Some "s1") Demo.store1).1
  = new_session "new" (hours 24 + 1) "alice".
Proof. reflexivity. Qed.

Example ex_long_message_accepted :
  Routes.char_count (Demo.letters 1001) = 1001%nat
  ∧ Routes.ChatRequest_validate (Routes.mkBody (Some (JStr (Demo.letters 1001))) None)
    = Some (Routes.mkChatRequest (Demo.letters 1001) None)
  ∧ Routes.models_ChatRequest_validate
      (Routes.mkBody (Some (JStr (Demo.letters 1001))) None) = None.
Proof. vm_compute. done. Qed.

(** ** Further properties of the session store *)

Lemma window_trim h : window h = trim h.
Proof.
  unfold window. destruct (Nat.ltb_spec 21 (length h)) as [H|H].
  - by rewrite trim_large.
  - by rewrite trim_small.
Qed.

Lemma trim_trim_snoc h m : trim (trim h ++ [m]) = trim (h ++ [m]).
Proof.
  destruct (Nat.le_gt_cases (length h) 21) as [H|H].
  - by rewrite (trim_small h).
  - rewrite (trim_large h) by done.
    destruct h as [|m0 h]; [simpl in H; lia |].
    assert (HX : length (drop (length (m0 :: h) - 20) (m0 :: h)) = 20%nat)
      by (rewrite length_drop; lia).
    set (X := drop (length (m0 :: h) - 20) (m0 :: h)) in *.
    assert (Hh : (21 ≤ length h)%nat) by (simpl in H; lia).
    cbn [take]. rewrite take_0. cbn [app].
    rewrite (trim_large (m0 :: X ++ [m]))
      by (cbn [length]; rewrite length_app, HX; simpl; lia).
    rewrite (trim_large (m0 :: h ++ [m]))
      by (cbn [length]; rewrite length_app; simpl; lia).
    cbn [take app]. rewrite !take_0. cbn [app]. f_equal.
    replace (length (m0 :: X ++ [m]) - 20)%nat with 2%nat
      by (cbn [length]; rewrite length_app, HX; simpl; lia).
    replace (length (m0 :: h ++ [m]) - 20)%nat with (S (length h - 19))
      by (cbn [length]; rewrite length_app; simpl; lia).
    cbn [drop]. rewrite !drop_app_le by lia. f_equal. subst X.
    replace (length (m0 :: h) - 20)%nat with (S (length h - 20)) by (simpl; lia).
    cbn [drop]. rewrite drop_drop. f_equal. lia.
Qed.

Lemma add_messages_messages l : ∀ s h,
  messages s = trim h →
  messages (add_messages l s) = trim (h ++ map appended l).
Proof.
  induction l as [|a l IH]; intros s h Hs.
  - by rewrite app_nil_r.
  - cbn [add_messages fold_left map]. fold (add_messages l).
    rewrite (IH _ (h ++ [appended a])).
    + by rewrite <- app_assoc.
    + cbn [add_message messages]. rewrite Hs. apply trim_trim_snoc.
Qed.

(** X1: a session that received any sequence of messages holds all of
    them while they are at most 21, and afterwards the very first message
    followed by the 20 most recent ones, in order. *)
Theorem X1_history_is_first_and_latest_20 uuid t uid (l : list Append) :
  messages (add_messages l (new_session uuid t uid)) = window (map appended l).
Proof.
  rewrite window_trim. by rewrite (add_messages_messages l _ []).
Qed.

(** X2: a session is expired exactly from the moment more than 24 hours
    have passed since its last message: a message received at [t] keeps it
    alive up to and including [t + 24h], and once expired it stays so. *)
Theorem X2_expiry_window t r c tcs (s : ChatSession) :
  (∀ now, is_expired now 24 (add_message t r c tcs s) = true ↔ t + hours 24 < now)
  ∧ (∀ now now' s', is_expired now 24 s' = true → now ≤ now' →
                    is_expired now' 24 s' = true).
Proof.
  split.
  - intros now. unfold is_expired. cbn [add_message last_activity].
    by rewrite Z.ltb_lt.
  - intros now now' s'. unfold is_expired. rewrite !Z.ltb_lt. lia.
Qed.

(** X3: [delete_session] reports whether the id was stored; afterwards
    the id is gone, every other session is as before, and deleting the
    same id again reports [False] and changes nothing. *)
Theorem X3_delete_session k (st : gmap string ChatSession) :
  ((delete_session k st).1 = true ↔ is_Some (get_session k st))
  ∧ get_session k (delete_session k st).2 = None
  ∧ (∀ k', k' ≠ k → get_session k' (delete_session k st).2 = get_session k' st)
  ∧ delete_session k (delete_session k st).2 = (false, (delete_session k st).2).
Proof.
  unfold delete_session, get_session.
  destruct (st !! k) as [s|] eqn:Hk; cbn [fst snd].
  - split; [by split |]. split; [apply lookup_delete_eq |].
    split; [intros k' Hne; by apply lookup_delete_ne |].
    by rewrite lookup_delete_eq.
  - split; [split; [done | intros [x Hx]; done] |].
    split; [done |]. split; [done |]. by rewrite Hk.
Qed.

Lemma cleanup_cleanup now now' (st : gmap string ChatSession) :
  now ≤ now' →
  _cleanup_expired_sessions now' (_cleanup_expired_sessions now st)
  = _cleanup_expired_sessions now' st.
Proof.
  intros Hle. apply map_eq. intros k.
  destruct (_cleanup_expired_sessions now' st !! k) as [s|] eqn:Hk.
  - apply cleanup_lookup in Hk as [Hk He]. apply cleanup_lookup.
    split; [| done]. apply cleanup_lookup. split; [done |].
    unfold is_expired in *. apply Z.ltb_ge. apply Z.ltb_ge in He. lia.
  - destruct (_cleanup_expired_sessions now' (_cleanup_expired_sessions now st) !! k)
      as [s|] eqn:Hk'; [| done].
    apply cleanup_lookup in Hk' as [Hk' He]. apply cleanup_lookup in Hk' as [Hk' _].
    assert (_cleanup_expired_sessions now' st !! k = Some s) by by apply cleanup_lookup.
    congruence.
Qed.

(** X4: the sweep keeps exactly the sessions that are not expired, under
    their ids; a sweep after an earlier sweep gives what the later sweep
    alone gives, so sweeping twice at the same time changes nothing. *)
Theorem X4_cleanup_expired_sessions now (st : gmap string ChatSession) :
  (∀ k s, _cleanup_expired_sessions now st !! k = Some s
          ↔ st !! k = Some s ∧ (now ≤ last_activity s + hours 24)%Z)
  ∧ (∀ now', now ≤ now' →
       _cleanup_expired_sessions now' (_cleanup_expired_sessions now st)
       = _cleanup_expired_sessions now' st)
  ∧ _cleanup_expired_sessions now (_cleanup_expired_sessions now st)
    = _cleanup_expired_sessions now st.
Proof.
  split; [| split].
  - intros k s. rewrite cleanup_lookup. unfold is_expired. rewrite Z.ltb_ge.
    split; intros [H1 H2]; (split; [done | lia]).
  - intros now' Hle. by apply cleanup_cleanup.
  - apply cleanup_cleanup. lia.
Qed.

(** X5: a session created for a user can be resumed by that user with the
    id it was given, at any time up to 24 hours after its creation: the
    second call returns the very session the first one created, and
    creates nothing. *)
Theorem X5_create_then_resume now now' uuid uuid' uid (st : gmap string ChatSession) :
  truthy_str uuid = true →
  now ≤ now' ≤ now + hours 24 →
  get_or_create_session now' uuid' uid (Some uuid)
    (get_or_create_session now uuid uid None st).2
  = ((get_or_create_session now uuid uid None st).1,
     _cleanup_expired_sessions now' (get_or_create_session now uuid uid None st).2)
  ∧ (get_or_create_session now uuid uid None st).1 = new_session uuid now uid.
Proof.
  intros Hu [Hle1 Hle2]. split; [| done].
  unfold get_or_create_session at 1. cbn zeta. rewrite Hu.
  cbn [get_or_create_session snd fst new_session session_id].
  assert (Hl : _cleanup_expired_sessions now'
                 (<[uuid := new_session uuid now uid]> (_cleanup_expired_sessions now st))
               !! uuid = Some (new_session uuid now uid)).
  { apply cleanup_lookup. split; [apply lookup_insert_eq |].
    unfold is_expired. cbn [new_session last_activity]. apply Z.ltb_ge. lia. }
  unfold new_session in *. rewrite Hl. cbn [user_id].
  rewrite bool_decide_eq_true_2 by done.
  unfold is_expired. cbn [last_activity].
  replace (now + hours 24 <? now') with false by (symmetry; apply Z.ltb_ge; lia).
  done.
Qed.

(** ** Further properties of the orchestration loop *)

Lemma string_app_nil_r (s : string) : s +:+ EmptyString = s.
Proof.
  induction s as [|a s IH]; [done |].
  change (String a s +:+ EmptyString) with (String a (s +:+ EmptyString)).
  by rewrite IH.
Qed.

Lemma string_app_assoc (s1 s2 s3 : string) : (s1 +:+ s2) +:+ s3 = s1 +:+ s2 +:+ s3.
Proof.
  induction s1 as [|a s1 IH]; [done |].
  change ((String a s1 +:+ s2) +:+ s3) with (String a ((s1 +:+ s2) +:+ s3)).
  change (String a s1 +:+ s2 +:+ s3) with (String a (s1 +:+ s2 +:+ s3)).
  by rewrite IH.
Qed.

Lemma concat_empty_cons (c : string) (l : list string) :
  String.concat EmptyString (c :: l) = c +:+ String.concat EmptyString l.
Proof.
  destruct l as [|c' l]; simpl; [by rewrite string_app_nil_r | done].
Qed.

Lemma consume_stream_relay chs : ∀ full cur,
  (consume_stream (full, cur) chs).1 = map (λ c, EvContent c None) (contents_of chs)
  ∧ (consume_stream (full, cur) chs).2.1
    = full +:+ String.concat EmptyString (contents_of chs)
  ∧ (consume_stream (full, cur) chs).2.2 = fold_left collect_delta (deltas_of chs) cur.
Proof.
  induction chs as [|ch chs IH]; intros full cur.
  - cbn. by rewrite string_app_nil_r.
  - cbn [consume_stream consume_chunk]. unfold contents_of, deltas_of.
    cbn [omap list_omap map concat]. fold (contents_of chs). fold (deltas_of chs).
    rewrite fold_left_app.
    assert (Hc : (match delta_tool_calls ch with
                  | Some ds => fold_left collect_delta ds cur
                  | None => cur
                  end) = fold_left collect_delta (default [] (delta_tool_calls ch)) cur)
      by by destruct (delta_tool_calls ch).
    rewrite Hc. clear Hc.
    set (cur' := fold_left collect_delta (default [] (delta_tool_calls ch)) cur).
    destruct (delta_content ch) as [c|]; [destruct (truthy_str c) |].
    + destruct (IH (full +:+ c) cur') as (H1 & H2 & H3).
      destruct (consume_stream (full +:+ c, cur') chs) as [evs [f cu]].
      cbn [fst snd] in *. subst.
      by rewrite concat_empty_cons, string_app_assoc.
    + destruct (IH full cur') as (H1 & H2 & H3).
      destruct (consume_stream (full, cur') chs) as [evs [f cu]].
      cbn [fst snd] in *. by subst.
    + destruct (IH full cur') as (H1 & H2 & H3).
      destruct (consume_stream (full, cur') chs) as [evs [f cu]].
      cbn [fst snd] in *. by subst.
Qed.

(** X9: the content events of a round are the non-empty content fragments
    of the model's stream, one event per fragment and in arrival order, and
    the text kept as the round's content is their concatenation. *)
Theorem X9_content_is_relayed_in_order (resp : Response) :
  content_events_of resp = map (λ c, EvContent c None) (contents_of (chunks resp))
  ∧ full_content_of resp = String.concat EmptyString (contents_of (chunks resp))
  ∧ String.concat EmptyString (map event_content (content_events_of resp))
    = full_content_of resp.
Proof.
  unfold content_events_of, full_content_of.
  destruct (consume_stream_relay (chunks resp) EmptyString []) as (H1 & H2 & _).
  rewrite H1, H2. split; [done |]. split; [done |].
  rewrite map_map. cbn [event_content]. by rewrite map_id.
Qed.

Lemma has_index_elem i (cur : list (Z * ToolCall)) :
  has_index i cur = true ↔ i ∈ map fst cur.
Proof.
  unfold has_index. rewrite existsb_exists, list_elem_of_fmap. split.
  - intros ([j t] & Hin & Heq). apply Z.eqb_eq in Heq. simpl in Heq. subst.
    exists (i, t). split; [done | by apply list_elem_of_In].
  - intros ([j t] & -> & Hin). exists (j, t).
    split; [by apply list_elem_of_In | apply Z.eqb_refl].
Qed.

Lemma alter_index_keys f i (cur : list (Z * ToolCall)) :
  map fst (alter_index f i cur) = map fst cur.
Proof.
  unfold alter_index. rewrite map_map. apply map_ext. intros [j t]. simpl.
  by destruct (j =? i).
Qed.

Lemma collect_delta_keys (cur : list (Z * ToolCall)) d :
  map fst (collect_delta cur d)
  = match d_index d with
    | Some i => if has_index i cur then map fst cur else map fst cur ++ [i]
    | None => map fst cur
    end.
Proof.
  unfold collect_delta. destruct (d_index d) as [i|]; [| done].
  rewrite alter_index_keys. destruct (has_index i cur); [done |].
  by rewrite map_app.
Qed.

Lemma fold_collect_keys ds : ∀ cur : list (Z * ToolCall),
  NoDup (map fst cur) →
  NoDup (map fst (fold_left collect_delta ds cur))
  ∧ (∀ i, i ∈ map fst (fold_left collect_delta ds cur)
          ↔ i ∈ map fst cur ∨ ∃ d, d ∈ ds ∧ d_index d = Some i).
Proof.
  induction ds as [|d ds IH]; intros cur Hnd.
  - split; [done |]. intros i. split; [by left |].
    intros [H | (d & Hd & _)]; [done | by apply elem_of_nil in Hd].
  - cbn [fold_left].
    assert (Hnd' : NoDup (map fst (collect_delta cur d))).
    { rewrite collect_delta_keys. destruct (d_index d) as [i|]; [| done].
      destruct (has_index i cur) eqn:Hi; [done |].
      apply NoDup_app. split; [done |]. split; [| apply NoDup_singleton].
      intros x Hx Hx'. apply list_elem_of_singleton in Hx'. subst.
      apply has_index_elem in Hx. congruence. }
    destruct (IH _ Hnd') as [H1 H2]. split; [done |].
    intros i. rewrite H2, collect_delta_keys. split.
    + intros [Hi | (d' & Hd' & Hi)].
      * destruct (d_index d) as [j|] eqn:Hj; [| by left].
        destruct (has_index j cur); [by left |].
        apply elem_of_app in Hi as [Hi | Hi]; [by left |].
        apply list_elem_of_singleton in Hi. subst. right. exists d.
        split; [apply list_elem_of_here | done].
      * right. exists d'. split; [by apply list_elem_of_further | done].
    + intros [Hi | (d' & Hd' & Hi)].
      * left. destruct (d_index d) as [j|]; [| done].
        destruct (has_index j cur); [done |]. apply elem_of_app. by left.
      * apply elem_of_cons in Hd' as [-> | Hd'].
        -- left. rewrite Hi. destruct (has_index i cur) eqn:Hh.
           ++ by apply has_index_elem.
           ++ apply elem_of_app. right. by apply list_elem_of_singleton.
        -- right. by exists d'.
Qed.

(** X10: the collected tool calls are one per distinct index of the
    stream's tool-call fragments: no index occurs twice among them, and an
    index is among them exactly when some fragment carried it. *)
Theorem X10_one_tool_call_per_index (resp : Response) :
  NoDup (map fst (consume_stream (EmptyString, []) (chunks resp)).2.2)
  ∧ length (tool_calls_of resp)
    = length (map fst (consume_stream (EmptyString, []) (chunks resp)).2.2)
  ∧ (∀ i, i ∈ map fst (consume_stream (EmptyString, []) (chunks resp)).2.2
          ↔ ∃ d, d ∈ deltas_of (chunks resp) ∧ d_index d = Some i).
Proof.
  unfold tool_calls_of.
  destruct (consume_stream_relay (chunks resp) EmptyString []) as (_ & _ & ->).
  destruct (fold_collect_keys (deltas_of (chunks resp)) [] (NoDup_nil_2)) as [H1 H2].
  split; [done |]. split; [by rewrite !length_map |].
  intros i. rewrite H2. split; [| by right].
  intros [H | H]; [by apply elem_of_nil in H | done].
Qed.

Lemma assoc_alter_index f i j (cur : list (Z * ToolCall)) :
  assoc_index j (alter_index f i cur)
  = if Z.eqb i j then f <$> assoc_index j cur else assoc_index j cur.
Proof.
  induction cur as [|[k t] cur IH]; [by destruct (i =? j) |].
  cbn [alter_index map assoc_index fst snd]. fold (alter_index f i cur).
  destruct (Z.eqb_spec k i) as [-> | Hki]; cbn [assoc_index].
  - destruct (Z.eqb_spec i j) as [-> | Hij]; [done |].
    rewrite IH. by destruct (Z.eqb_spec i j).
  - destruct (Z.eqb_spec k j) as [-> | Hkj].
    + by destruct (Z.eqb_spec i j).
    + by rewrite IH.
Qed.

Lemma assoc_index_snoc j (cur : list (Z * ToolCall)) i t :
  assoc_index j (cur ++ [(i, t)])
  = match assoc_index j cur with
    | Some x => Some x
    | None => if Z.eqb i j then Some t else None
    end.
Proof.
  induction cur as [|[k u] cur IH]; [done |].
  cbn [app assoc_index]. by destruct (k =? j).
Qed.

Lemma assoc_index_none i (cur : list (Z * ToolCall)) :
  has_index i cur = false → assoc_index i cur = None.
Proof.
  induction cur as [|[k u] cur IH]; [done |].
  unfold has_index. cbn [existsb assoc_index fst]. intros H.
  apply orb_false_iff in H as [H1 H2]. rewrite H1. by apply IH.
Qed.

Lemma assoc_index_some i (cur : list (Z * ToolCall)) :
  has_index i cur = true → is_Some (assoc_index i cur).
Proof.
  induction cur as [|[k u] cur IH]; [done |].
  unfold has_index. cbn [existsb assoc_index fst]. intros H.
  destruct (k =? i); [by eexists | by apply IH].
Qed.

Lemma collect_delta_assoc j (cur : list (Z * ToolCall)) d :
  assoc_index j (collect_delta cur d)
  = if bool_decide (d_index d = Some j)
    then Some (upd_tool d (default empty_tool (assoc_index j cur)))
    else assoc_index j cur.
Proof.
  unfold collect_delta. destruct (d_index d) as [i|]; [| done].
  rewrite assoc_alter_index.
  destruct (Z.eqb_spec i j) as [-> | Hij].
  - rewrite bool_decide_eq_true_2 by done.
    destruct (has_index j cur) eqn:Hh.
    + by destruct (assoc_index_some _ _ Hh) as [t ->].
    + rewrite assoc_index_snoc, (assoc_index_none _ _ Hh), Z.eqb_refl. done.
  - rewrite bool_decide_eq_false_2 by congruence.
    destruct (has_index i cur); [done |].
    rewrite assoc_index_snoc. destruct (assoc_index j cur); [done |].
    by destruct (Z.eqb_spec i j).
Qed.

Lemma upd_tool_arguments d t :
  tc_arguments (upd_tool d t)
  = tc_arguments t +:+ default EmptyString (d_function d ≫= fn_arguments).
Proof.
  unfold upd_tool.
  set (t1 := match d_id d with
             | Some i => if truthy_str i then _ else t
             | None => t
             end).
  assert (H1 : tc_arguments t1 = tc_arguments t).
  { subst t1. destruct (d_id d) as [i|]; [destruct (truthy_str i) |]; done. }
  destruct (d_function d) as [f|]; cbn [mbind option_bind default].
  - set (t2 := match fn_name f with
               | Some n => if truthy_str n then _ else t1
               | None => t1
               end).
    assert (H2 : tc_arguments t2 = tc_arguments t1).
    { subst t2. destruct (fn_name f) as [n|]; [destruct (truthy_str n) |]; done. }
    destruct (fn_arguments f) as [a|]; cbn [default].
    + destruct a as [|c a]; cbn [truthy_str tc_arguments].
      * by rewrite string_app_nil_r, H2, H1.
      * by rewrite H2, H1.
    + by rewrite string_app_nil_r, H2, H1.
  - by rewrite string_app_nil_r.
Qed.

Lemma fragments_for_cons i d ds :
  fragments_for i (d :: ds)
  = (if bool_decide (d_index d = Some i)
     then default EmptyString (d_function d ≫= fn_arguments)
     else EmptyString) +:+ fragments_for i ds.
Proof.
  unfold fragments_for. cbn [omap list_omap].
  destruct (bool_decide (d_index d = Some i)); [| done].
  destruct (d_function d) as [f|]; cbn [mbind option_bind]; [| done].
  destruct (fn_arguments f) as [a|]; cbn [default]; [| done].
  apply concat_empty_cons.
Qed.

Lemma fold_collect_arguments j ds : ∀ (cur : list (Z * ToolCall)) tc,
  assoc_index j (fold_left collect_delta ds cur) = Some tc →
  tc_arguments tc
  = tc_arguments (default empty_tool (assoc_index j cur)) +:+ fragments_for j ds.
Proof.
  induction ds as [|d ds IH]; intros cur tc Htc.
  - cbn [fold_left] in Htc. rewrite Htc. cbn. by rewrite string_app_nil_r.
  - cbn [fold_left] in Htc. rewrite (IH _ _ Htc), collect_delta_assoc, fragments_for_cons.
    destruct (bool_decide (d_index d = Some j)); cbn [from_option id].
    + by rewrite upd_tool_arguments, string_app_assoc.
    + done.
Qed.

Lemma assoc_index_elem i tc (cur : list (Z * ToolCall)) :
  NoDup (map fst cur) → (i, tc) ∈ cur → assoc_index i cur = Some tc.
Proof.
  induction cur as [|[k u] cur IH]; intros Hnd Hin; [by apply elem_of_nil in Hin |].
  cbn [map fst] in Hnd. apply NoDup_cons in Hnd as [Hk Hnd].
  cbn [assoc_index]. apply elem_of_cons in Hin as [[= <- <-] | Hin].
  - by rewrite Z.eqb_refl.
  - destruct (Z.eqb_spec k i) as [-> | Hne]; [| by apply IH].
    exfalso. apply Hk. apply list_elem_of_fmap. by exists (i, tc).
Qed.

(** X11: the argument text of each collected tool call is the
    concatenation, in arrival order, of the argument fragments that the
    stream carried for that call's index. *)
Theorem X11_arguments_are_joined_by_index (resp : Response) i tc :
  (i, tc) ∈ (consume_stream (EmptyString, []) (chunks resp)).2.2 →
  tc_arguments tc = fragments_for i (deltas_of (chunks resp)).
Proof.
  destruct (consume_stream_relay (chunks resp) EmptyString []) as (_ & _ & ->).
  intros Hin.
  destruct (fold_collect_keys (deltas_of (chunks resp)) [] (NoDup_nil_2)) as [Hnd _].
  by rewrite (fold_collect_arguments i _ [] tc (assoc_index_elem _ _ _ Hnd Hin)).
Qed.

Lemma get_or_create_user now uuid uid sid (st : gmap string ChatSession) :
  user_id (get_or_create_session now uuid uid sid st).1 = uid.
Proof.
  destruct (get_or_create_cases now uuid uid sid st) as [H|H].
  - by destruct H as (k & _ & _ & _ & Hu & _).
  - by rewrite H.
Qed.

Section MoreLoopFacts.

Variable json_loads : string → result JValue.
Variable DB : Type.
Variable handler : ToolName → string → list (string * JValue) → DB → result string * DB.
Variable kwargs_error : ToolName → JValue → string.
Variable OPENAI_API_KEY : Setting.
Variable SYSTEM_PROMPT : string.
Variable model : nat → list Message → Response.

Local Abbreviation exec := (execute_tool json_loads DB handler kwargs_error).
Local Abbreviation dispatch := (dispatch_tools json_loads DB handler kwargs_error).
Local Abbreviation after := (db_after json_loads DB handler kwargs_error).
Local Abbreviation round := (run_round json_loads DB handler kwargs_error model).
Local Abbreviation loop := (tool_loop json_loads DB handler kwargs_error model).
Local Abbreviation chat :=
  (process_chat_stream json_loads DB handler kwargs_error OPENAI_API_KEY
     SYSTEM_PROMPT model).
Local Abbreviation turn := (open_turn DB).

Lemma loop_sessions_other fuel it now uid k msgs (w : World DB) k' :
  k' ≠ k → sessions (world (loop fuel it now uid k msgs w)) !! k' = sessions w !! k'.
Proof.
  intros Hne.
  destruct (loop_sessions json_loads DB handler kwargs_error model fuel it now uid k
              msgs w) as [Hs | [c Hs]]; rewrite Hs; [done |].
  by rewrite lookup_alter_ne.
Qed.

Lemma turn_sessions t message uid sid (w : World DB) :
  sessions (turn t message uid sid w).2
  = <[session_id (turn t message uid sid w).1 := (turn t message uid sid w).1]>
      (get_or_create_session (t_fetch t) (uuid4 t) uid sid (sessions w)).2
  ∧ session_id (turn t message uid sid w).1
    = session_id (get_or_create_session (t_fetch t) (uuid4 t) uid sid (sessions w)).1
  ∧ user_id (turn t message uid sid w).1 = uid
  ∧ messages (turn t message uid sid w).1
    = trim (messages (get_or_create_session (t_fetch t) (uuid4 t) uid sid
                        (sessions w)).1
            ++ [mkMessage "user" (Some message) None None]).
Proof.
  unfold open_turn.
  pose proof (get_or_create_user (t_fetch t) (uuid4 t) uid sid (sessions w)) as Hu.
  destruct (get_or_create_session _ _ _ _ _) as [session store]. done.
Qed.

(** X6: a chat turn changes no stored session but its own: every other
    session that is not expired when the turn starts is afterwards stored
    unchanged, whatever the model and the tools do. *)
Theorem X6_turn_changes_only_its_session t message uid sid (w : World DB) k s :
  sessions w !! k = Some s →
  is_expired (t_fetch t) 24 s = false →
  k ≠ session_id (turn t message uid sid w).1 →
  sessions (world (chat t message uid sid w)) !! k = Some s.
Proof.
  intros Hk He Hne.
  destruct (get_openai_client_cases OPENAI_API_KEY (client w)) as [H|[H|H]];
    [| by rewrite (chat_config_error _ _ _ _ _ _ _ _ _ _ _ _ _ H)
     | by rewrite (chat_attribute_error _ _ _ _ _ _ _ _ _ _ _ _ _ H)].
  - rewrite (chat_ok _ _ _ _ _ _ _ _ _ _ _ _ H). cbv zeta. cbn [world].
    rewrite loop_sessions_other by done.
    destruct (turn_sessions t message uid sid w) as (-> & Hid & _ & _).
    rewrite lookup_insert_ne by done.
    destruct (get_or_create_cases (t_fetch t) (uuid4 t) uid sid (sessions w))
      as [Hc|Hc].
    + destruct Hc as (k0 & _ & _ & _ & _ & _ & ->). by apply cleanup_lookup.
    + rewrite Hid, Hc in Hne. cbn [fst new_session session_id] in Hne.
      rewrite Hc. cbn [snd]. rewrite lookup_insert_ne by done.
      by apply cleanup_lookup.
Qed.

Lemma loop_first_request fuel it now uid k msgs (w : World DB) :
  head (requests (loop (S fuel) it now uid k msgs w)) = Some msgs.
Proof.
  cbn [tool_loop]. by destruct (round it uid msgs (db w)).
Qed.

(** X7: a turn that names a session of another user runs in a fresh
    session of the caller: the stream announces the new id, and the first
    request to the model holds the system prompt and the caller's message
    only, nothing of the other user's history. *)
Theorem X7_foreign_session_id_starts_afresh t message uid (w : World DB) k s :
  sessions w !! k = Some s →
  user_id s ≠ uid →
  get_openai_client OPENAI_API_KEY (client w) = Ready →
  head (events (chat t message uid (Some k) w))
  = Some (EvContent EmptyString (Some (uuid4 t)))
  ∧ head (requests (chat t message uid (Some k) w))
    = Some [system_message SYSTEM_PROMPT; mkMessage "user" (Some message) None None].
Proof.
  intros Hk Hu H. rewrite (chat_ok _ _ _ _ _ _ _ _ _ _ _ _ H). cbv zeta.
  cbn [events requests head]. unfold max_iterations. rewrite loop_first_request.
  destruct (turn_sessions t message uid (Some k) w) as (_ & Hid & _ & Hm).
  destruct (get_or_create_cases (t_fetch t) (uuid4 t) uid (Some k) (sessions w))
    as [Hc|Hc].
  - destruct Hc as (k0 & [= <-] & _ & Hl & Hu' & _).
    apply cleanup_lookup in Hl as [Hl _]. rewrite Hk in Hl. injection Hl as Hl.
    exfalso. apply Hu. rewrite Hl. exact Hu'.
  - rewrite Hc in Hid, Hm. cbn [fst new_session session_id messages] in Hid, Hm.
    by rewrite Hid, Hm.
Qed.

(** X8: when the model's first response holds no tool call and does not
    fail, the stream is the session event, the content events and [done],
    with no [tool_call] and no [error] event; the model is called once, and
    the assistant's text is appended to the turn's session. *)
Theorem X8_direct_answer t message uid sid (w : World DB) :
  let session := (turn t message uid sid w).1 in
  let msgs := system_message SYSTEM_PROMPT :: messages session in
  get_openai_client OPENAI_API_KEY (client w) = Ready →
  failure (model 0 msgs) = None →
  tool_calls_of (model 0 msgs) = [] →
  events (chat t message uid sid w)
  = EvContent EmptyString (Some (session_id session))
      :: map (λ c, EvContent c None) (contents_of (chunks (model 0 msgs))) ++ [EvDone]
  ∧ requests (chat t message uid sid w) = [msgs]
  ∧ sessions (world (chat t message uid sid w))
    = alter (add_message (t_reply t) "assistant"
               (Some (String.concat EmptyString (contents_of (chunks (model 0 msgs)))))
               None)
        (session_id session) (sessions (turn t message uid sid w).2).
Proof.
  intros session msgs H Hf Hn. rewrite (chat_ok _ _ _ _ _ _ _ _ _ _ _ _ H). cbv zeta.
  fold session. fold msgs. unfold max_iterations. cbn [tool_loop].
  rewrite (round_no_failure _ _ _ _ _ _ _ _ _ Hf), Hn.
  cbn [events requests world sessions].
  unfold content_events_of, full_content_of.
  destruct (consume_stream_relay (chunks (model 0 msgs)) EmptyString [])
    as (-> & -> & _).
  done.
Qed.

Lemma dispatch_abort uid tcs1 : ∀ bad tcs2 msgs d e,
  forallb (parses json_loads) tcs1 = true →
  json_loads (tc_arguments bad) = Raise e →
  ∃ evs,
    dispatch uid (tcs1 ++ bad :: tcs2) msgs d = DispatchRaised evs e (after uid tcs1 d)
    ∧ forallb is_tool_call evs = true ∧ length evs = length tcs1.
Proof.
  induction tcs1 as [|tc tcs1 IH]; intros bad tcs2 msgs d e Hp Hb.
  - exists []. cbn [app dispatch_tools db_after]. by rewrite Hb.
  - cbn [forallb] in Hp. apply andb_true_iff in Hp as [Hp1 Hp2].
    unfold parses in Hp1. cbn [app dispatch_tools db_after].
    destruct (json_loads (tc_arguments tc)) as [args|e']; [| done].
    destruct (exec uid tc d) as [res d'] eqn:He. cbn [snd].
    destruct (IH bad tcs2 (msgs ++ [tool_message tc res]) d' e Hp2 Hb)
      as (evs & -> & Hev & Hl).
    eexists. cbn [prepend_events]. split; [done |].
    split; [done | cbn [length]; by rewrite Hl].
Qed.

(** X12: a tool call whose argument text does not parse ends the turn's
    loop at once: the calls before it in the round have run and their
    effects on the task store stay, the calls after it never run, the
    stream gets an [error] event, and the session store is untouched. *)
Theorem X12_unparsable_arguments_stop_the_loop
    fuel it now uid k msgs (w : World DB) tcs1 bad tcs2 e :
  failure (model it msgs) = None →
  tool_calls_of (model it msgs) = tcs1 ++ bad :: tcs2 →
  forallb (parses json_loads) tcs1 = true →
  json_loads (tc_arguments bad) = Raise e →
  ∃ evs,
    loop (S fuel) it now uid k msgs w
    = mkRun ((content_events_of (model it msgs) ++ evs) ++ [EvError e])
        (mkWorld (sessions w) (after uid tcs1 (db w)) (client w)) [msgs]
    ∧ forallb is_tool_call evs = true ∧ length evs = length tcs1.
Proof.
  intros Hf Htcs Hp Hb. cbn [tool_loop].
  rewrite (round_no_failure _ _ _ _ _ _ _ _ _ Hf), Htcs.
  destruct (dispatch_abort uid tcs1 bad tcs2
              (msgs ++ [assistant_tool_message (full_content_of (model it msgs))
                          (tcs1 ++ bad :: tcs2)]) (db w) e Hp Hb)
    as (evs & Hd & Hev & Hl).
  exists evs. split; [| done].
  destruct (tcs1 ++ bad :: tcs2) as [|tc tcs] eqn:Hl'.
  - by destruct tcs1.
  - by rewrite Hd.
Qed.

Lemma trim_snoc_last l m :
  ∃ l', trim (l ++ [m]) = l' ++ [m] ∧ (length l' ≤ 20)%nat.
Proof.
  destruct (Nat.le_gt_cases (length l) 20) as [H|H].
  - exists l. split; [| done]. apply trim_small. rewrite length_app. simpl. lia.
  - exists (take 1 l ++ drop (length l - 19) l). split.
    + rewrite trim_large by (rewrite length_app; simpl; lia).
      rewrite length_app. cbn [length].
      replace (length l + 1 - 20)%nat with (length l - 19)%nat by lia.
      rewrite take_app_le, drop_app_le by lia. by rewrite <- app_assoc.
    + rewrite length_app, length_take, length_drop. lia.
Qed.

Lemma trim_keeps_last_two l m a :
  (length l ≤ 20)%nat → m ∈ trim ((l ++ [m]) ++ [a]).
Proof.
  intros H. destruct (Nat.le_gt_cases (length l) 19) as [H'|H'].
  - rewrite trim_small by (rewrite !length_app; simpl; lia).
    apply elem_of_app. left. apply elem_of_app. right. apply list_elem_of_here.
  - rewrite trim_large by (rewrite !length_app; simpl; lia).
    apply elem_of_app. right. rewrite !length_app. cbn [length].
    replace (length l + 1 + 1 - 20)%nat with 2%nat by lia.
    rewrite <- app_assoc. rewrite drop_app_le by lia.
    apply elem_of_app. right. apply list_elem_of_here.
Qed.

(** X13: a turn that gets past the configuration check opens its stream
    with the id of a session that is stored under that id when the stream
    ends, belongs to the caller, holds the caller's message and has at most
    21 entries. *)
Theorem X13_stream_names_the_stored_session t message uid sid (w : World DB) :
  get_openai_client OPENAI_API_KEY (client w) = Ready →
  ∃ k s,
    head (events (chat t message uid sid w)) = Some (EvContent EmptyString (Some k))
    ∧ sessions (world (chat t message uid sid w)) !! k = Some s
    ∧ session_id s = k ∧ user_id s = uid
    ∧ mkMessage "user" (Some message) None None ∈ messages s
    ∧ (length (messages s) ≤ 21)%nat.
Proof.
  intros H. rewrite (chat_ok _ _ _ _ _ _ _ _ _ _ _ _ H). cbv zeta.
  cbn [events world head].
  destruct (turn_sessions t message uid sid w) as (Hs & _ & Hu & Hm).
  set (session := (turn t message uid sid w).1) in *.
  destruct (trim_snoc_last
              (messages (get_or_create_session (t_fetch t) (uuid4 t) uid sid
                           (sessions w)).1)
              (mkMessage "user" (Some message) None None)) as (l' & Hl' & Hlen).
  rewrite Hl' in Hm.
  exists (session_id session).
  match goal with
  | |- ∃ _, _ ∧ sessions (world (tool_loop _ _ _ _ _ ?f ?i ?n ?u ?k ?m ?w0)) !! _ = _ ∧ _ =>
      destruct (loop_sessions json_loads DB handler kwargs_error model f i n u k m w0)
        as [Hw | [c Hw]]
  end; rewrite Hw, Hs.
  - exists session. rewrite lookup_insert_eq.
    split; [done |]. split; [done |]. split; [done |]. split; [done |].
    rewrite Hm. split.
    + apply elem_of_app. right. apply list_elem_of_here.
    + rewrite length_app. simpl. lia.
  - eexists. rewrite lookup_alter_eq, lookup_insert_eq.
    cbn [fmap option_fmap option_map].
    split; [done |]. split; [done |]. cbn [add_message session_id user_id messages].
    split; [done |]. split; [done |]. rewrite Hm.
    split; [by apply trim_keeps_last_two | apply trim_length].
Qed.

Lemma exec_ext handler' uid tc (d : DB) :
  (∀ h kwargs d0, has_kwarg "user_id" kwargs = false →
                  handler h uid kwargs d0 = handler' h uid kwargs d0) →
  exec uid tc d = execute_tool json_loads DB handler' kwargs_error uid tc d.
Proof.
  intros Hh. unfold execute_tool, call_handler.
  destruct (TOOL_HANDLERS_get (tc_name tc)) as [h|]; [| done].
  destruct (json_loads (tc_arguments tc)) as [args|e]; [| done].
  destruct args as [| | | | |kwargs]; try done.
  destruct (has_kwarg "user_id" kwargs) eqn:Hk; [done |].
  by rewrite Hh.
Qed.

Lemma dispatch_ext handler' uid tcs : ∀ msgs (d : DB),
  (∀ h kwargs d0, has_kwarg "user_id" kwargs = false →
                  handler h uid kwargs d0 = handler' h uid kwargs d0) →
  dispatch uid tcs msgs d
  = dispatch_tools json_loads DB handler' kwargs_error uid tcs msgs d.
Proof.
  induction tcs as [|tc tcs IH]; intros msgs d Hh; [done |].
  cbn [dispatch_tools]. rewrite <- (exec_ext handler' uid tc d Hh).
  destruct (json_loads (tc_arguments tc)) as [args|e]; [| done].
  destruct (exec uid tc d) as [res d']. by rewrite IH.
Qed.

Lemma loop_ext handler' fuel : ∀ it now uid k msgs (w : World DB),
  (∀ h kwargs d0, has_kwarg "user_id" kwargs = false →
                  handler h uid kwargs d0 = handler' h uid kwargs d0) →
  loop fuel it now uid k msgs w
  = tool_loop json_loads DB handler' kwargs_error model fuel it now uid k msgs w.
Proof.
  induction fuel as [|fuel IH]; intros it now uid k msgs w Hh; [done |].
  cbn [tool_loop].
  assert (Hr : round it uid msgs (db w)
               = run_round json_loads DB handler' kwargs_error model it uid msgs (db w)).
  { unfold run_round. destruct (consume_stream _ _) as [evs [full cur]].
    destruct (failure (model it msgs)); [done |].
    destruct (map snd cur) as [|tc tcs]; [done |].
    by rewrite (dispatch_ext handler' uid (tc :: tcs) _ _ Hh). }
  rewrite <- Hr. destruct (round it uid msgs (db w)); [done | | done].
  by rewrite IH.
Qed.

(** X19: the tool handlers are only ever called with the caller's user id
    and with keyword arguments that hold no [user_id]: two handler tables
    that agree on such calls give the same stream, the same stored sessions
    and the same task store. *)
Theorem X19_handlers_are_called_for_the_caller_only
    handler' t message uid sid (w : World DB) :
  (∀ h kwargs d0, has_kwarg "user_id" kwargs = false →
                  handler h uid kwargs d0 = handler' h uid kwargs d0) →
  chat t message uid sid w
  = process_chat_stream json_loads DB handler' kwargs_error OPENAI_API_KEY
      SYSTEM_PROMPT model t message uid sid w.
Proof.
  intros Hh. unfold process_chat_stream.
  destruct (get_openai_client OPENAI_API_KEY (client w)); [| done | done].
  destruct (turn t message uid sid w) as [session w1].
  by rewrite (loop_ext handler' max_iterations 0 _ _ _ _ _ Hh).
Qed.

End MoreLoopFacts.

(** ** The todo list *)

Section TodoFacts.

Variable isoformat : Z → string.
Variable fromisoformat : string → result Z.

Local Abbreviation to_dict := (TodoApp.to_dict isoformat).
Local Abbreviation from_dict := (TodoApp.from_dict fromisoformat).
Local Abbreviation from_item := (TodoApp.from_item fromisoformat).
Local Abbreviation from_dicts := (TodoApp.from_dicts fromisoformat).
Local Abbreviation save := (TodoApp.save isoformat).
Local Abbreviation load := (TodoApp.load fromisoformat).
Local Abbreviation init := (TodoApp.init fromisoformat).
Local Abbreviation apply_op := (TodoApp.apply_op isoformat).
Local Abbreviation apply_ops := (TodoApp.apply_ops isoformat).
Local Abbreviation iso_ok := (TodoApp.iso_ok isoformat fromisoformat).

Lemma from_dict_to_dict t : iso_ok t → from_dict (to_dict t) = Ok t.
Proof.
  intros [Hc Hu]. unfold TodoApp.from_dict, TodoApp.to_dict. simpl.
  rewrite Hc, Hu. by destruct t.
Qed.

Lemma from_dicts_to_dicts l :
  Forall iso_ok l
  → from_dicts (map (λ todo, TodoApp.Object (to_dict todo)) l) = Ok l.
Proof.
  induction 1 as [|t l Ht _ IH]; [done |].
  cbn [map TodoApp.from_dicts TodoApp.from_item].
  by rewrite (from_dict_to_dict t Ht), IH.
Qed.

Lemma load_save l (st : TodoApp.TodoStorage) :
  TodoApp.writable st = true → Forall iso_ok l →
  (save l st).2 = true ∧ load (save l st).1 = Ok l.
Proof.
  unfold TodoApp.save, TodoApp.load. intros Hw Hl. rewrite Hw.
  split; [done |]. cbn [fst TodoApp.file]. by apply from_dicts_to_dicts.
Qed.






Lemma apply_op_synced o (m : TodoApp.TodoManager) :
  (∀ z, fromisoformat (isoformat z) = Ok z) →
  TodoApp.writable (TodoApp.storage m) = true →
  load (TodoApp.storage m) = Ok (TodoApp.todos m) →
  TodoApp.writable (TodoApp.storage (apply_op o m)) = true
  ∧ load (TodoApp.storage (apply_op o m)) = Ok (TodoApp.todos (apply_op o m)).
Proof.
  intros Hiso Hw Hl.
  assert (Hall : ∀ l, Forall iso_ok l).
  { intros l. induction l; constructor; [split; apply Hiso | done]. }
  assert (Hsave : ∀ l,
    TodoApp.writable (TodoApp.storage
      (TodoApp._save isoformat (TodoApp.mkManager (TodoApp.storage m) l))) = true
    ∧ load (TodoApp.storage
        (TodoApp._save isoformat (TodoApp.mkManager (TodoApp.storage m) l)))
      = Ok (TodoApp.todos
              (TodoApp._save isoformat (TodoApp.mkManager (TodoApp.storage m) l)))).
  { intros l. unfold TodoApp._save. cbn [TodoApp.storage TodoApp.todos].
    destruct (load_save l (TodoApp.storage m) Hw (Hall l)) as [_ H2].
    split; [| done]. unfold TodoApp.save. by rewrite Hw. }
  destruct o as [f ttl desc | k | now k ttl desc | now k |]; cbn [TodoApp.apply_op].
  - apply Hsave.
  - unfold TodoApp.delete_task.
    destruct (TodoApp.get_task_by_id k (TodoApp.todos m)); [apply Hsave | done].
  - unfold TodoApp.update_task.
    destruct (TodoApp.get_task_by_id k (TodoApp.todos m)); [apply Hsave | done].
  - unfold TodoApp.toggle_task.
    destruct (TodoApp.get_task_by_id k (TodoApp.todos m)); [apply Hsave | done].
  - apply Hsave.
Qed.

(** X16: on a writable storage, the file always holds what the manager
    holds: after any sequence of add, delete, update, toggle and clear
    calls on a manager built from the storage, building a manager again
    from the storage gives the very same manager. *)
Theorem X16_restart_restores_the_manager
    ops (st : TodoApp.TodoStorage) (m : TodoApp.TodoManager) :
  (∀ z, fromisoformat (isoformat z) = Ok z) →
  TodoApp.writable st = true →
  init st = Ok m →
  init (TodoApp.storage (apply_ops ops m)) = Ok (apply_ops ops m).
Proof.
  intros Hiso Hw Hinit.
  assert (Hm : TodoApp.writable (TodoApp.storage m) = true
               ∧ load (TodoApp.storage m) = Ok (TodoApp.todos m)).
  { unfold TodoApp.init in Hinit. destruct (load st) as [l|e] eqn:Hl; [| done].
    injection Hinit as <-. done. }
  clear Hinit Hw st.
  assert (Hgen : TodoApp.writable (TodoApp.storage (apply_ops ops m)) = true
                 ∧ load (TodoApp.storage (apply_ops ops m))
                   = Ok (TodoApp.todos (apply_ops ops m))).
  { revert m Hm. induction ops as [|o ops IH]; intros m [Hw Hl]; [done |].
    cbn [TodoApp.apply_ops fold_left]. apply IH. by apply apply_op_synced. }
  destruct Hgen as [_ Hl]. unfold TodoApp.init. rewrite Hl.
  by destruct (apply_ops ops m).
Qed.

Lemma get_task_by_id_split k l t :
  TodoApp.get_task_by_id k l = Some t →
  ∃ l1 l2, l = l1 ++ t :: l2 ∧ Forall (λ x, TodoApp.id x ≠ k) l1 ∧ TodoApp.id t = k
           ∧ TodoApp.pop_first k l = l1 ++ l2
           ∧ ∀ g, TodoApp.on_first g k l = l1 ++ g t :: l2.
Proof.
  induction l as [|x l IH]; [done |].
  cbn [TodoApp.get_task_by_id TodoApp.pop_first TodoApp.on_first].
  destruct (String.eqb_spec (TodoApp.id x) k) as [Hx | Hx].
  - intros [= <-]. by exists [], l.
  - intros Ht. destruct (IH Ht) as (l1 & l2 & -> & Hl1 & Hid & Hp & Hg).
    exists (x :: l1), l2. split; [done |]. split; [by constructor |].
    split; [done |]. split; [by rewrite Hp |]. intros g. by rewrite Hg.
Qed.

Lemma get_task_by_id_none k l :
  TodoApp.get_task_by_id k l = None ↔ Forall (λ x, TodoApp.id x ≠ k) l.
Proof.
  induction l as [|x l IH]; [by split |].
  cbn [TodoApp.get_task_by_id].
  destruct (String.eqb_spec (TodoApp.id x) k) as [Hx | Hx].
  - split; [done |]. intros H. by apply Forall_cons in H as [H _].
  - rewrite IH. split; [by constructor | intros H; by apply Forall_cons in H as [_ H]].
Qed.

(** X17: [delete_task] removes the first task that has the id and no
    other: the tasks before it and after it stay, in order; with no such
    task it reports failure and leaves the manager as it is. *)
Theorem X17_delete_task k (m : TodoApp.TodoManager) :
  (Forall (λ x, TodoApp.id x ≠ k) (TodoApp.todos m) →
   TodoApp.delete_task isoformat k m = ((false, TodoApp.not_found k), m))
  ∧ (∀ t, TodoApp.get_task_by_id k (TodoApp.todos m) = Some t →
       ∃ l1 l2,
         TodoApp.todos m = l1 ++ t :: l2
         ∧ Forall (λ x, TodoApp.id x ≠ k) l1 ∧ TodoApp.id t = k
         ∧ TodoApp.todos (TodoApp.delete_task isoformat k m).2 = l1 ++ l2
         ∧ (TodoApp.delete_task isoformat k m).1
           = (true, "Task '" +:+ TodoApp.title t +:+ "' deleted!")).
Proof.
  split.
  - intros H. apply get_task_by_id_none in H. unfold TodoApp.delete_task. by rewrite H.
  - intros t Ht. destruct (get_task_by_id_split _ _ _ Ht) as (l1 & l2 & Hl & H1 & Hid & Hp & _).
    exists l1, l2. unfold TodoApp.delete_task. rewrite Ht.
    cbn [fst snd TodoApp._save TodoApp.todos]. done.
Qed.

Lemma get_task_by_id_app k l1 l2 :
  TodoApp.get_task_by_id k (l1 ++ l2)
  = match TodoApp.get_task_by_id k l1 with
    | Some t => Some t
    | None => TodoApp.get_task_by_id k l2
    end.
Proof.
  induction l1 as [|x l1 IH]; [done |].
  cbn [app TodoApp.get_task_by_id]. by destruct (String.eqb (TodoApp.id x) k).
Qed.

(** X18: a task added with an id no task has can be found by that id, and
    every other id finds what it found before; but when the drawn id is
    already the id of a task, looking the id up still gives the older
    task, not the one just added. *)
Theorem X18_add_task_and_lookup f ttl desc (m : TodoApp.TodoManager) :
  TodoApp.todos (TodoApp.add_task isoformat f ttl desc m).2
  = TodoApp.todos m ++ [TodoApp.new_todo f ttl desc]
  ∧ (TodoApp.get_task_by_id (TodoApp.fresh_id f) (TodoApp.todos m) = None →
     TodoApp.get_task_by_id (TodoApp.fresh_id f)
       (TodoApp.todos (TodoApp.add_task isoformat f ttl desc m).2)
     = Some (TodoApp.new_todo f ttl desc))
  ∧ (∀ old, TodoApp.get_task_by_id (TodoApp.fresh_id f) (TodoApp.todos m) = Some old →
       TodoApp.get_task_by_id (TodoApp.fresh_id f)
         (TodoApp.todos (TodoApp.add_task isoformat f ttl desc m).2)
       = Some old)
  ∧ (∀ k, k ≠ TodoApp.fresh_id f →
       TodoApp.get_task_by_id k
         (TodoApp.todos (TodoApp.add_task isoformat f ttl desc m).2)
       = TodoApp.get_task_by_id k (TodoApp.todos m)).
Proof.
  unfold TodoApp.add_task. cbn [snd TodoApp._save TodoApp.todos].
  split; [done |]. split; [| split].
  - intros H. rewrite get_task_by_id_app, H.
    cbn [TodoApp.get_task_by_id TodoApp.new_todo TodoApp.id]. by rewrite String.eqb_refl.
  - intros old H. by rewrite get_task_by_id_app, H.
  - intros k Hk. rewrite get_task_by_id_app.
    destruct (TodoApp.get_task_by_id k (TodoApp.todos m)); [done |].
    cbn [TodoApp.get_task_by_id TodoApp.new_todo TodoApp.id].
    destruct (String.eqb_spec (TodoApp.fresh_id f) k); [congruence | done].
Qed.

Lemma on_first_on_first g1 g2 k l :
  (∀ t, TodoApp.id (g1 t) = TodoApp.id t) →
  TodoApp.on_first g2 k (TodoApp.on_first g1 k l)
  = TodoApp.on_first (λ t, g2 (g1 t)) k l.
Proof.
  intros Hid. induction l as [|x l IH]; [done |].
  cbn [TodoApp.on_first].
  destruct (String.eqb (TodoApp.id x) k) eqn:Hx; cbn [TodoApp.on_first].
  - by rewrite Hid, Hx.
  - by rewrite Hx, IH.
Qed.

Lemma get_task_by_id_on_first g k l :
  (∀ t, TodoApp.id (g t) = TodoApp.id t) →
  TodoApp.get_task_by_id k (TodoApp.on_first g k l)
  = g <$> TodoApp.get_task_by_id k l.
Proof.
  intros Hid. induction l as [|x l IH]; [done |].
  cbn [TodoApp.on_first TodoApp.get_task_by_id].
  destruct (String.eqb (TodoApp.id x) k) eqn:Hx; cbn [TodoApp.get_task_by_id].
  - by rewrite Hid, Hx.
  - by rewrite Hx, IH.
Qed.

(** X20: toggling a task twice brings every task back to what it was but
    for [updated_at]; the first toggle reports [complete] exactly when the
    task was pending, the second the opposite. *)
Theorem X20_toggle_twice now1 now2 k (m : TodoApp.TodoManager) :
  let m1 := (TodoApp.toggle_task isoformat now1 k m).2 in
  let m2 := (TodoApp.toggle_task isoformat now2 k m1).2 in
  Forall2 TodoApp.same_task (TodoApp.todos m2) (TodoApp.todos m)
  ∧ (∀ t, TodoApp.get_task_by_id k (TodoApp.todos m) = Some t →
       (TodoApp.toggle_task isoformat now1 k m).1
       = (true, "Task marked as "
                  +:+ (if TodoApp.completed t then "incomplete" else "complete") +:+ "!")
       ∧ (TodoApp.toggle_task isoformat now2 k m1).1
         = (true, "Task marked as "
                    +:+ (if TodoApp.completed t then "complete" else "incomplete")
                    +:+ "!")).
Proof.
  intros m1 m2. subst m1 m2. unfold TodoApp.toggle_task.
  destruct (TodoApp.get_task_by_id k (TodoApp.todos m)) as [t|] eqn:Ht.
  - cbn [snd fst TodoApp._save TodoApp.todos].
    rewrite get_task_by_id_on_first, Ht by done. cbn [fmap option_fmap option_map].
    cbn [snd fst TodoApp._save TodoApp.todos].
    rewrite on_first_on_first by done.
    split.
    + clear Ht. induction (TodoApp.todos m) as [|x l IH]; [constructor |].
      cbn [TodoApp.on_first]. destruct (String.eqb (TodoApp.id x) k).
      * constructor.
        -- unfold TodoApp.same_task. cbn. by rewrite negb_involutive.
        -- clear. induction l; constructor; [done | done].
      * constructor; [done | apply IH].
    + intros t' [= <-]. cbn [TodoApp.toggle_status TodoApp.completed].
      rewrite negb_involutive. by destruct (TodoApp.completed t).
  - cbn [snd]. rewrite Ht. cbn [snd]. split; [| done].
    clear. induction (TodoApp.todos m); constructor; [done | done].
Qed.

(** X21: the three numbers of [get_task_count] are the number of tasks,
    the number of completed tasks and the number of pending tasks. *)
Theorem X21_task_counts (m : TodoApp.TodoManager) :
  TodoApp.get_task_count m
  = (Z.of_nat (length (TodoApp.get_all_tasks m)),
     Z.of_nat (length (TodoApp.get_completed_tasks m)),
     Z.of_nat (length (TodoApp.get_pending_tasks m))).
Proof.
  unfold TodoApp.get_task_count, TodoApp.get_all_tasks, TodoApp.get_completed_tasks,
    TodoApp.get_pending_tasks. cbv zeta. f_equal.
  induction (TodoApp.todos m) as [|x l IH]; [done |].
  cbn [List.filter length]. destruct (TodoApp.completed x); cbn [negb length]; lia.
Qed.

Lemma filter_filter_same (p : TodoApp.Todo → bool) l :
  List.filter p (List.filter p l) = List.filter p l.
Proof.
  induction l as [|x l IH]; [done |].
  cbn [List.filter]. destruct (p x) eqn:Hp; [| done].
  cbn [List.filter]. by rewrite Hp, IH.
Qed.

Lemma filter_filter_negb (p : TodoApp.Todo → bool) l :
  List.filter p (List.filter (λ t, negb (p t)) l) = [].
Proof.
  induction l as [|x l IH]; [done |].
  cbn [List.filter]. destruct (p x) eqn:Hp; cbn [negb]; [done |].
  cbn [List.filter]. by rewrite Hp.
Qed.

(** X22: [clear_completed_tasks] keeps exactly the pending tasks, in
    order: afterwards no task is completed, the pending tasks are the same,
    and the count it reports is the number of completed tasks there were;
    clearing again reports 0. *)
Theorem X22_clear_completed_tasks (m : TodoApp.TodoManager) :
  let m' := (TodoApp.clear_completed_tasks isoformat m).2 in
  TodoApp.todos m' = TodoApp.get_pending_tasks m
  ∧ TodoApp.get_completed_tasks m' = []
  ∧ TodoApp.get_pending_tasks m' = TodoApp.get_pending_tasks m
  ∧ (TodoApp.clear_completed_tasks isoformat m).1
    = Z.of_nat (length (TodoApp.get_completed_tasks m))
  ∧ (TodoApp.clear_completed_tasks isoformat m').1 = 0.
Proof.
  intros m'. subst m'.
  unfold TodoApp.clear_completed_tasks, TodoApp.get_completed_tasks,
    TodoApp.get_pending_tasks, TodoApp._save.
  cbn [fst snd TodoApp.todos].
  split; [done |]. split; [apply (filter_filter_negb TodoApp.completed) |].
  split; [apply (filter_filter_same (λ t, negb (TodoApp.completed t))) |].
  split.
  - induction (TodoApp.todos m) as [|x l IH]; [done |].
    cbn [List.filter length]. destruct (TodoApp.completed x); cbn [negb length]; lia.
  - rewrite (filter_filter_same (λ t, negb (TodoApp.completed t))). lia.
Qed.

(** X23: [update_task] changes the first task that has the id and no
    other: a title or description that is not given keeps its value, the
    id, the status and the creation time stay, and the task keeps its place
    in the list. *)
Theorem X23_update_task now k ttl desc (m : TodoApp.TodoManager) t :
  TodoApp.get_task_by_id k (TodoApp.todos m) = Some t →
  ∃ l1 l2,
    TodoApp.todos m = l1 ++ t :: l2
    ∧ Forall (λ x, TodoApp.id x ≠ k) l1
    ∧ TodoApp.todos (TodoApp.update_task isoformat now k ttl desc m).2
      = l1 ++ TodoApp.mkTodo (default (TodoApp.title t) ttl)
                (default (TodoApp.description t) desc)
                (TodoApp.completed t) k (TodoApp.created_at t) now :: l2
    ∧ (TodoApp.update_task isoformat now k ttl desc m).1
      = (true, "Task '" +:+ default (TodoApp.title t) ttl +:+ "' updated!").
Proof.
  intros Ht. destruct (get_task_by_id_split _ _ _ Ht) as (l1 & l2 & Hl & H1 & Hid & _ & Hg).
  exists l1, l2. unfold TodoApp.update_task. rewrite Ht.
  cbn [fst snd TodoApp._save TodoApp.todos]. rewrite Hg.
  unfold TodoApp.update. cbn [TodoApp.title]. rewrite Hid.
  split; [done |]. split; [done |].
  split; by destruct ttl, desc.
Qed.

End TodoFacts.

(** ** Pagination of the task list *)

(** X24: with at least one item per page, the page count is at least 1
    and the pages hold all items; when there are items, a page holds at
    least one of them exactly when its number is at most the page count,
    so the last page is never empty. *)
Theorem X24_pagination total pageSize :
  1 ≤ pageSize → 0 ≤ total →
  1 ≤ TaskRoutes.total_pages total pageSize
  ∧ total ≤ TaskRoutes.total_pages total pageSize * pageSize
  ∧ (∀ page, 1 ≤ page → 0 < total →
       (TaskRoutes.offset page pageSize < total
        ↔ page ≤ TaskRoutes.total_pages total pageSize))
  ∧ (∀ page, 1 ≤ page → 0 ≤ TaskRoutes.offset page pageSize).
Proof.
  intros Hp Ht. unfold TaskRoutes.total_pages, TaskRoutes.offset.
  destruct (Z.ltb_spec 0 total) as [Hpos | Hzero].
  - pose proof (Z.div_mod (total + pageSize - 1) pageSize ltac:(lia)) as Hdm.
    pose proof (Z.mod_pos_bound (total + pageSize - 1) pageSize ltac:(lia)) as Hmod.
    set (tp := (total + pageSize - 1) / pageSize) in *.
    split; [nia |]. split; [nia |]. split.
    + intros page Hpage _. split; intros H; nia.
    + intros page Hpage. nia.
  - split; [lia |]. split; [nia |]. split; [intros page Hpage Hc; lia |].
    intros page Hpage. nia.
Qed.

(** ** The SQL of the task routes *)

(** X25: in both queries of [list_tasks] every placeholder has its
    parameter and every parameter its placeholder, and with the parameters
    in place the [WHERE] clause is the caller's [userId] condition first,
    then the search, status, priority and tag conditions that were asked
    for, each with its own value; [LIMIT] and [OFFSET] get the page size and
    the offset. *)
Theorem X25_list_tasks_sql user_id search status_filter priority_filter tag
    order_clause page pageSize :
  let r := TaskRoutes.list_tasks_sql user_id search status_filter priority_filter tag
             order_clause page pageSize in
  let meaning := TaskRoutes.list_tasks_meaning user_id search status_filter
                   priority_filter tag in
  TaskRoutes.bind (TaskRoutes.count_params r) (TaskRoutes.count_query r)
  = TaskRoutes.BLit "SELECT COUNT(*) FROM task WHERE "
      :: TaskRoutes.join_bound " AND " meaning
  ∧ TaskRoutes.bind (TaskRoutes.page_params r) (TaskRoutes.page_query r)
    = TaskRoutes.BLit ("SELECT " +:+ TaskRoutes.columns +:+ " FROM task WHERE ")
        :: TaskRoutes.join_bound " AND " meaning
        ++ [TaskRoutes.BLit (" ORDER BY " +:+ order_clause +:+ " LIMIT ");
            TaskRoutes.BVal (Some (TaskRoutes.VInt pageSize));
            TaskRoutes.BLit " OFFSET ";
            TaskRoutes.BVal (Some (TaskRoutes.VInt (TaskRoutes.offset page pageSize)))]
  ∧ forallb (TaskRoutes.uses (TaskRoutes.count_query r))
      (seq 1 (length (TaskRoutes.count_params r))) = true
  ∧ forallb (TaskRoutes.uses (TaskRoutes.page_query r))
      (seq 1 (length (TaskRoutes.page_params r))) = true
  ∧ head (TaskRoutes.page_params r) = Some (TaskRoutes.VStr user_id).
Proof.
  destruct search as [[|c1 x1]|], status_filter as [st|], priority_filter as [pr|],
    tag as [[|c2 x2]|]; cbv zeta; repeat split; reflexivity.
Qed.

(** X26: [update_task] refuses an update without fields; otherwise every
    placeholder of its query has its parameter and every parameter its
    placeholder, and with the parameters in place the query sets each given
    field to its own value, then [updatedAt] to the clock, for the row
    whose [id] is the task id and whose [userId] is the caller's. *)
Theorem X26_update_task_sql task_id user_id now (u : TaskRoutes.TaskUpdate) :
  (TaskRoutes.update_task_sql task_id user_id now u = None
   ↔ u = TaskRoutes.mkTaskUpdate None None None None None None)
  ∧ (∀ q params,
       TaskRoutes.update_task_sql task_id user_id now u = Some (q, params) →
       TaskRoutes.bind params q
       = TaskRoutes.BLit "UPDATE task SET "
           :: TaskRoutes.join_bound ", " (TaskRoutes.update_task_meaning now u)
           ++ [TaskRoutes.BLit " WHERE id = ";
               TaskRoutes.BVal (Some (TaskRoutes.VStr task_id));
               TaskRoutes.BLit (" AND " +:+ TaskRoutes.dq +:+ "userId" +:+ TaskRoutes.dq
                                +:+ " = ");
               TaskRoutes.BVal (Some (TaskRoutes.VStr user_id));
               TaskRoutes.BLit (" RETURNING " +:+ TaskRoutes.columns)]
       ∧ forallb (TaskRoutes.uses q) (seq 1 (length params)) = true).
Proof.
  destruct u as [[t|] [d|] [s|] [p|] [dd|] [tg|]];
    (split; [split; intros H; try discriminate H; reflexivity |]);
    intros q params H; try discriminate H;
    injection H as <- <-; split; reflexivity.
Qed.

(** ** The further properties on the concrete environments *)

Lemma X5_witness :
  get_or_create_session 2000 "new" "alice" (Some "3f0c")
    (get_or_create_session 1000 "3f0c" "alice" None ∅).2
  = ((get_or_create_session 1000 "3f0c" "alice" None ∅).1,
     _cleanup_expired_sessions 2000 (get_or_create_session 1000 "3f0c" "alice" None ∅).2).
Proof.
  refine (proj1 (X5_create_then_resume 1000 2000 "3f0c" "new" "alice" ∅ eq_refl _)).
  unfold hours. lia.
Defined.

Lemma X6_witness :
  sessions (world (Demo.chat Demo.model_milk Demo.turn0 "add buy milk" "bob" None
                     (mkWorld Demo.store1 [] false))) !! "s1"
  = Some Demo.alice_session.
Proof.
  apply (X6_turn_changes_only_its_session Demo.json_loads Demo.DB Demo.handler
           Demo.kwargs_error (Declared (Some "sk-test")) Demo.SYSTEM_PROMPT Demo.model_milk
           Demo.turn0 "add buy milk" "bob" None (mkWorld Demo.store1 [] false)
           "s1" Demo.alice_session).
  - reflexivity.
  - reflexivity.
  - intros H. vm_compute in H. discriminate H.
Defined.

Lemma X7_witness :
  head (requests (Demo.chat Demo.model_hello Demo.turn0 "hi" "mallory" (Some "s1")
                    (mkWorld Demo.store1 [] false)))
  = Some [system_message Demo.SYSTEM_PROMPT; mkMessage "user" (Some "hi") None None].
Proof.
  refine (proj2 (X7_foreign_session_id_starts_afresh Demo.json_loads Demo.DB
                   Demo.handler Demo.kwargs_error (Declared (Some "sk-test")) Demo.SYSTEM_PROMPT
                   Demo.model_hello Demo.turn0 "hi" "mallory"
                   (mkWorld Demo.store1 [] false) "s1" Demo.alice_session
                   eq_refl _ eq_refl)).
  discriminate.
Defined.

Lemma X8_witness :
  events (Demo.chat Demo.model_hello Demo.turn0 "hi" "alice" None Demo.world0)
  = [EvContent EmptyString (Some "3f0c"); EvContent "Hello!" None; EvDone].
Proof.
  exact (proj1 (X8_direct_answer Demo.json_loads Demo.DB Demo.handler
                  Demo.kwargs_error (Declared (Some "sk-test")) Demo.SYSTEM_PROMPT
                  Demo.model_hello Demo.turn0 "hi" "alice" None Demo.world0
                  eq_refl eq_refl eq_refl)).
Defined.

Lemma X11_witness :
  tc_arguments (mkToolCall "a" "create_task" "{}")
  = fragments_for 0 (deltas_of Demo.interleaved).
Proof.
  apply (X11_arguments_are_joined_by_index (mkResponse Demo.interleaved None) 0).
  apply list_elem_of_further, list_elem_of_here.
Defined.

Lemma X12_witness :
  ∃ evs,
    tool_loop Demo.json_loads Demo.DB Demo.handler Demo.kwargs_error
      Demo.model_garbled 5 0 5000 "alice" "3f0c" [] Demo.world0
    = mkRun ((content_events_of (Demo.model_garbled 0 []) ++ evs)
               ++ [EvError "Expecting value: line 1 column 1 (char 0)"])
        (mkWorld ∅ [("alice", "buy milk")] false) [[]]
    ∧ forallb is_tool_call evs = true ∧ length evs = 1%nat.
Proof.
  exact (X12_unparsable_arguments_stop_the_loop Demo.json_loads Demo.DB Demo.handler
           Demo.kwargs_error Demo.model_garbled 4 0 5000 "alice" "3f0c" []
           Demo.world0 [mkToolCall "call_1" "create_task" Demo.args_milk]
           (mkToolCall "call_2" "list_tasks" "{oops") []
           "Expecting value: line 1 column 1 (char 0)"
           eq_refl eq_refl eq_refl eq_refl).
Defined.

Lemma X13_witness :
  ∃ k s,
    head (events (Demo.chat Demo.model_milk Demo.turn0 "add buy milk" "alice" None
                    Demo.world0)) = Some (EvContent EmptyString (Some k))
    ∧ sessions (world (Demo.chat Demo.model_milk Demo.turn0 "add buy milk" "alice"
                         None Demo.world0)) !! k = Some s
    ∧ session_id s = k ∧ user_id s = "alice"
    ∧ mkMessage "user" (Some "add buy milk") None None ∈ messages s
    ∧ (length (messages s) ≤ 21)%nat.
Proof.
  exact (X13_stream_names_the_stored_session Demo.json_loads Demo.DB Demo.handler
           Demo.kwargs_error (Declared (Some "sk-test")) Demo.SYSTEM_PROMPT Demo.model_milk
           Demo.turn0 "add buy milk" "alice" None Demo.world0 eq_refl).
Defined.

Lemma X19_witness :
  Demo.chat Demo.model_milk Demo.turn0 "add buy milk" "alice" None Demo.world0
  = process_chat_stream Demo.json_loads Demo.DB
      (λ h uid kwargs d,
         if String.eqb uid "alice" then Demo.handler h uid kwargs d
         else (Raise "not the caller", d))
      Demo.kwargs_error (Declared (Some "sk-test")) Demo.SYSTEM_PROMPT Demo.model_milk
      Demo.turn0 "add buy milk" "alice" None Demo.world0.
Proof.
  apply (X19_handlers_are_called_for_the_caller_only Demo.json_loads Demo.DB
           Demo.handler Demo.kwargs_error (Declared (Some "sk-test")) Demo.SYSTEM_PROMPT
           Demo.model_milk).
  intros h kwargs d0 _. reflexivity.
Defined.

Lemma X16_witness :
  TodoApp.init TodoDemo.fromisoformat
    (TodoApp.storage (TodoApp.apply_ops TodoDemo.isoformat TodoDemo.ops
                        (TodoApp.mkManager TodoDemo.disk [])))
  = Ok (TodoApp.apply_ops TodoDemo.isoformat TodoDemo.ops
          (TodoApp.mkManager TodoDemo.disk [])).
Proof.
  apply (X16_restart_restores_the_manager TodoDemo.isoformat TodoDemo.fromisoformat
           TodoDemo.ops TodoDemo.disk).
  - intros z. unfold TodoDemo.fromisoformat, TodoDemo.isoformat.
    rewrite NilEmpty.isi. f_equal. apply DecimalZ.of_to.
  - reflexivity.
  - reflexivity.
Defined.


Lemma X23_witness :
  ∃ l1 l2,
    TodoApp.todos TodoDemo.manager = l1 ++ TodoDemo.milk :: l2
    ∧ Forall (λ x, TodoApp.id x ≠ "a1b2c3d4") l1
    ∧ TodoApp.todos (TodoApp.update_task TodoDemo.isoformat 40 "a1b2c3d4" None
                       (Some "3 litres") TodoDemo.manager).2
      = l1 ++ TodoApp.mkTodo "buy milk" "3 litres" false "a1b2c3d4" 10 40 :: l2
    ∧ (TodoApp.update_task TodoDemo.isoformat 40 "a1b2c3d4" None (Some "3 litres")
         TodoDemo.manager).1
      = (true, "Task 'buy milk' updated!").
Proof.
  exact (X23_update_task TodoDemo.isoformat 40 "a1b2c3d4" None (Some "3 litres")
           TodoDemo.manager TodoDemo.milk eq_refl).
Defined.

Lemma X24_witness :
  TaskRoutes.total_pages 25 10 = 3
  ∧ 1 ≤ TaskRoutes.total_pages 25 10
  ∧ 25 ≤ TaskRoutes.total_pages 25 10 * 10.
Proof.
  split; [reflexivity |].
  destruct (X24_pagination 25 10) as (H1 & H2 & _); [lia | lia |].
  split; [exact H1 | exact H2].
Defined.

(** ** Further runs of the embedding *)

Example ex_todo_session :
  map (λ t, (TodoApp.title t, TodoApp.description t, TodoApp.completed t))
    (TodoApp.todos (TodoApp.apply_ops TodoDemo.isoformat TodoDemo.ops
                      (TodoApp.mkManager TodoDemo.disk [])))
  = [("buy milk", "3 litres", false)].
Proof. reflexivity. Qed.

Example ex_untitled_task_breaks_load :
  TodoApp.init TodoDemo.fromisoformat
    (TodoApp.mkStorage
       (TodoApp.Doc (Some "1.0")
          (TodoApp.Items
             [TodoApp.Object (TodoApp.to_dict TodoDemo.isoformat TodoDemo.milk);
              TodoApp.Object TodoDemo.untitled]))
       true)
  = Raise "'title'".
Proof. reflexivity. Qed.

Example ex_tasks_null_breaks_load :
  TodoApp.init TodoDemo.fromisoformat
    (TodoApp.mkStorage
       (TodoApp.Doc (Some "1.0")
          (TodoApp.NotIterable "'NoneType' object is not iterable"))
       true)
  = Raise "'NoneType' object is not iterable".
Proof. reflexivity. Qed.

Example ex_id_collision :
  TodoApp.get_task_by_id "a1b2c3d4" (TodoApp.todos TodoDemo.manager)
  = Some TodoDemo.milk
  ∧ map TodoApp.title
      (TodoApp.todos (TodoApp.delete_task TodoDemo.isoformat "a1b2c3d4"
                        TodoDemo.manager).2)
    = ["pay rent"; "call mum"].
Proof. split; reflexivity. Qed.

Example ex_total_pages :
  TaskRoutes.total_pages 0 10 = 1 ∧ TaskRoutes.total_pages 20 10 = 2
  ∧ TaskRoutes.total_pages 21 10 = 3 ∧ TaskRoutes.offset 3 10 = 20.
Proof. repeat split; reflexivity. Qed.
